(** * Bluestreak: the streak engine of the browser extension

    The repository holds two variants of the content script, both a class
    [StreakManager]:

    - the variant with a Today Checker and a single-flight refresh
      (module [Current] below), and
    - [content.js], which reconciles against the persisted record and has
      neither (module [Legacy] below).

    Both share [getUTCDate], [fetchWithTimeout], [getPostsForDay] and the DOM
    helpers line for line; those are modelled once.

    Modelling conventions.
    - A JavaScript [Date] is its instant, in milliseconds since the epoch.
    - [toLocaleDateString('en-US', {timeZone: 'UTC'})] renders the UTC calendar
      day as "M/D/YYYY"; the rendering is injective in the day, so the string
      is modelled by the day number (days since the epoch).
    - The cache key [`${handle}-${day}`] is modelled by the pair (handle, day):
      the day part holds no '-', so the key determines both components.
    - The local time zone is part of the world outside the script: the
      offset of local time from UTC at an instant, and the offset the host
      picks for a local time. [d.setDate(d.getDate() - 1)] steps one local
      calendar day back, which is 24 hours only where the two offsets agree.
    - [async] functions are run to completion in a state-and-exception monad;
      everything outside the script (network, clock) is an oracle indexed by
      the position in the event trace.
    - [while] loops carry fuel; running out of it is the outcome [Diverge]. *)

From Stdlib Require Import ZArith Lia.
From stdpp Require Import base option list gmap strings.

Local Open Scope Z_scope.

(** ** Data *)

Definition Handle := string.
Definition Cursor := string.

Definition msPerDay : Z := 86400000.

(** [StreakManager.getUTCDate(date)] *)
Definition getUTCDate (date : Z) : Z := date `div` msPerDay.

(** One entry of [data.feed]: [post.post.indexedAt], parsed by [new Date].
    The entries of a feed are taken to be well formed. *)
Record Post := mkPost { indexedAt : Z }.

(** The parsed body of a feed response. [data_feed = None] is a body without
    a [feed] member. *)
Record FeedData := mkFeedData {
  data_feed : option (list Post);
  data_cursor : option Cursor
}.

(** The query string built with [URLSearchParams]. *)
Record Request := mkRequest {
  actor : Handle;
  limit : Z;
  req_filter : string;
  req_cursor : option Cursor
}.

(** What [await fetchWithTimeout(..)] followed by [await response.json()]
    gives: an exception (transport failure, abort after the timeout of 5 s,
    body that is not a JSON object), or the parsed body. *)
Inductive Outcome :=
  | Rejected
  | Body (data : FeedData).

Inductive Event :=
  | Fetch (req : Request) (out : Outcome)
  | Sleep (ms : Z).

Inductive Error :=
  | FetchError
  | HelpLinkNotFound
  | ProfileLinkNotFound
  | TypeError.

(** The value under the key 'bluestreak' of [localStorage]. [streakDate] is
    the instant of the stored ISO string, [None] when the member is absent. *)
Record StreakRecord := mkStreakRecord {
  streakDate : option Z;
  streakNumber : Z
}.

Inductive SpanText :=
  | StreakText (streak : Z)
  | RefreshingText.

Inductive ButtonIcon :=
  | RefreshIcon
  | HourglassIcon.

(** The element of class [streak-main-container]. *)
Record StreakDisplay := mkStreakDisplay {
  postedToday : bool;
  streakText : SpanText;
  refreshButton : ButtonIcon
}.

Record Dom := mkDom {
  helpLink : bool;
  profileLink : option Handle;
  mainContainer : option StreakDisplay;
  loadingIndicator : bool;
  streakError : option string
}.

Record State := mkState {
  cache : gmap (Handle * Z) bool;
  localStorage : option StreakRecord;
  isRefreshing : bool;
  debounceTimeout : option nat;
  timers : list nat;
  nextTimer : nat;
  dom : Dom;
  trace : list Event
}.

(** The world outside the script. [net n req] answers the request issued when
    the trace holds [n] events, [clock n] is what [new Date()] reads there.
    The local time zone is given by its offsets from UTC in milliseconds:
    [utcOffset t] is the offset in force at the instant [t], and
    [localOffset l] is the offset the host picks for the local time [l] (for
    a local time that a change of offset skips or repeats, the host's
    choice). *)
Record Env := mkEnv {
  net : nat → Request → Outcome;
  clock : nat → Z;
  utcOffset : Z → Z;
  localOffset : Z → Z
}.

(** The local time of an instant, and the instant of a local time. *)
Definition localTime (env : Env) (date : Z) : Z := date + utcOffset env date.
Definition utcTime (env : Env) (l : Z) : Z := l - localOffset env l.

(** [date.setDate(date.getDate() - 1)]: the same time of day on the local
    calendar day before. [setDate] takes the local time of the date, replaces
    its day by the day of the month it is given within the same month, where
    0 is the last day of the month before, and converts back; with the
    argument [getDate() - 1] that local time is the one 24 hours earlier. *)
Definition previousDay (env : Env) (date : Z) : Z :=
  utcTime env (localTime env date - msPerDay).

(** ** Field updates *)

Definition with_cache (c : gmap (Handle * Z) bool) (s : State) : State :=
  mkState c (localStorage s) (isRefreshing s) (debounceTimeout s) (timers s)
          (nextTimer s) (dom s) (trace s).

Definition with_localStorage (r : option StreakRecord) (s : State) : State :=
  mkState (cache s) r (isRefreshing s) (debounceTimeout s) (timers s)
          (nextTimer s) (dom s) (trace s).

Definition with_isRefreshing (b : bool) (s : State) : State :=
  mkState (cache s) (localStorage s) b (debounceTimeout s) (timers s)
          (nextTimer s) (dom s) (trace s).

Definition with_dom (d : Dom) (s : State) : State :=
  mkState (cache s) (localStorage s) (isRefreshing s) (debounceTimeout s)
          (timers s) (nextTimer s) d (trace s).

Definition with_trace (t : list Event) (s : State) : State :=
  mkState (cache s) (localStorage s) (isRefreshing s) (debounceTimeout s)
          (timers s) (nextTimer s) (dom s) t.

Definition log (e : Event) (s : State) : State :=
  with_trace (trace s ++ [e]) s.

(** ** The monad of the script *)

Inductive Res (A : Type) :=
  | Ret (a : A) (s : State)
  | Throw (e : Error) (s : State)
  | Diverge.
Arguments Ret {A} a s.
Arguments Throw {A} e s.
Arguments Diverge {A}.

Definition M (A : Type) : Type := State → Res A.

Definition ret {A} (a : A) : M A := λ s, Ret a s.
Definition throw {A} (e : Error) : M A := λ s, Throw e s.
Definition bind {A B} (m : M A) (k : A → M B) : M B :=
  λ s, match m s with
       | Ret a s' => k a s'
       | Throw e s' => Throw e s'
       | Diverge => Diverge
       end.

(** [try { m } catch (error) { h error }] *)
Definition try_catch {A} (m : M A) (h : Error → M A) : M A :=
  λ s, match m s with
       | Throw e s' => h e s'
       | r => r
       end.

(** [try { m } finally { f }], for an [f] that neither throws nor returns. *)
Definition try_finally {A} (m : M A) (f : State → State) : M A :=
  λ s, match m s with
       | Ret a s' => Ret a (f s')
       | Throw e s' => Throw e (f s')
       | Diverge => Diverge
       end.

Definition modify (f : State → State) : M unit := λ s, Ret tt (f s).
Definition gets {A} (f : State → A) : M A := λ s, Ret (f s) s.

#[global] Instance M_ret : MRet M := @ret.
#[global] Instance M_bind : MBind M := λ A B k m, bind m k.

(** [new Date()] *)
Definition now (env : Env) : M Z := λ s, Ret (clock env (length (trace s))) s.

(** [await new Promise(r => setTimeout(r, ms))] *)
Definition sleep (ms : Z) : M unit := modify (log (Sleep ms)).

(** ** Shared methods *)

(** The parameters [getPostsForDay] and [checkRecentPostsForToday] pass. *)
Definition feedRequest (handle : Handle) (lim : Z) (cursor : option Cursor) : Request :=
  mkRequest handle lim "posts_no_replies" cursor.

(** [fetchWithTimeout] and [response.json()] *)
Definition fetchJson (env : Env) (req : Request) : M FeedData :=
  λ s, let out := net env (length (trace s)) req in
       let s' := log (Fetch req out) s in
       match out with
       | Rejected => Throw FetchError s'
       | Body data => Ret data s'
       end.

(** JavaScript truthiness of [data.cursor]: a non-empty string. *)
Definition truthy (c : option Cursor) : bool :=
  match c with
  | Some c => negb (String.eqb c "")
  | None => false
  end.

(** [!data.feed?.length] *)
Definition feedMissingOrEmpty (data : FeedData) : bool :=
  match data_feed data with
  | None | Some [] => true
  | Some (_ :: _) => false
  end.

(** [feed.some(post => getUTCDate(new Date(post.post.indexedAt)) === day)] *)
Definition somePostOn (day : Z) (posts : list Post) : bool :=
  existsb (λ post, getUTCDate (indexedAt post) =? day) posts.

(** The [while (!foundPost)] loop of [getPostsForDay]. *)
Fixpoint paginate (env : Env) (fuel : nat) (handle : Handle) (targetDate : Z)
    (cursor : option Cursor) : M bool :=
  match fuel with
  | O => λ _, Diverge
  | S fuel' =>
      data ← fetchJson env (feedRequest handle 100 cursor);
      if feedMissingOrEmpty data then ret false
      else
        let foundPost := somePostOn targetDate (default [] (data_feed data)) in
        if negb foundPost && truthy (data_cursor data)
        then paginate env fuel' handle targetDate (data_cursor data)
        else ret foundPost
  end.

(** [Math.pow(2, 3-retries) * 1000], for the [retries] the script passes
    (3, 2, 1): on [Z] a negative exponent gives 0, in JavaScript a fraction. *)
Definition backoff (retries : nat) : Z := 2 ^ (3 - Z.of_nat retries) * 1000.

(** [getPostsForDay(handle, date, retries = 3)] *)
Fixpoint getPostsForDay (env : Env) (fuel : nat) (handle : Handle) (date : Z)
    (retries : nat) : M bool :=
  λ s,
    let cacheKey := (handle, getUTCDate date) in
    match cache s !! cacheKey with
    | Some cached => Ret cached s
    | None =>
        match paginate env fuel handle (getUTCDate date) None s with
        | Ret foundPost s1 =>
            Ret foundPost (with_cache (<[cacheKey := foundPost]> (cache s1)) s1)
        | Throw error s1 =>
            match retries with
            | S retries' =>
                getPostsForDay env fuel handle date retries'
                  (log (Sleep (backoff retries)) s1)
            | O => Throw error s1
            end
        | Diverge => Diverge
        end
    end.

(** [removeExistingStreakContainers()] *)
Definition removeExistingStreakContainers : M unit :=
  modify (λ s, with_dom (mkDom (helpLink (dom s)) (profileLink (dom s)) None false None) s).

(** [showError(message)] *)
Definition showError (message : string) : M unit :=
  modify (λ s, with_dom
    (mkDom (helpLink (dom s)) (profileLink (dom s)) (mainContainer (dom s))
           (loadingIndicator (dom s))
           (if helpLink (dom s) then Some message else None)) s).

(** [getProfile()] *)
Definition getProfile : M Handle :=
  λ s, match profileLink (dom s) with
       | Some handle => Ret handle s
       | None => Throw ProfileLinkNotFound s
       end.

(** [container.appendChild(this.createLoadingIndicator())] *)
Definition appendLoadingIndicator : M unit :=
  modify (λ s, with_dom
    (mkDom (helpLink (dom s)) (profileLink (dom s)) (mainContainer (dom s))
           true (streakError (dom s))) s).

(** [createStreakDisplay(container, streak, postedToday)] *)
Definition createStreakDisplay (streak : Z) (posted : bool) : M unit :=
  modify (λ s, with_dom
    (mkDom (helpLink (dom s)) (profileLink (dom s))
           (Some (mkStreakDisplay posted (StreakText streak) RefreshIcon))
           (loadingIndicator (dom s)) (streakError (dom s))) s).

(** The [while (true)] loop of [calculateStreak], the same in both variants.
    [pfuel] bounds each pagination, [fuel] the number of days visited. *)
Fixpoint countBack (env : Env) (pfuel fuel : nat) (handle : Handle)
    (currentDate : Z) (streak : Z) : M Z :=
  match fuel with
  | O => λ _, Diverge
  | S fuel' =>
      hasPosted ← try_catch (getPostsForDay env pfuel handle currentDate 3)
        (λ error,
           showError "Error calculating streak. Please try again later.";;
           throw error);
      if negb hasPosted then mret streak
      else countBack env pfuel fuel' handle (previousDay env currentDate) (streak + 1)
  end.

(** [setTimeout(callback, 300)]: the callback is always the update sequence,
    so a pending timer is its identifier. *)
Definition setTimeout : M nat :=
  λ s, Ret (nextTimer s)
           (mkState (cache s) (localStorage s) (isRefreshing s) (debounceTimeout s)
                    (timers s ++ [nextTimer s]) (S (nextTimer s)) (dom s) (trace s)).

(** [clearTimeout(id)]: nothing happens when the timer has already fired. *)
Definition clearTimeout (id : nat) : M unit :=
  modify (λ s, mkState (cache s) (localStorage s) (isRefreshing s) (debounceTimeout s)
                       (filter (λ t, t ≠ id) (timers s)) (nextTimer s) (dom s) (trace s)).

Definition with_debounceTimeout (t : option nat) (s : State) : State :=
  mkState (cache s) (localStorage s) (isRefreshing s) t (timers s)
          (nextTimer s) (dom s) (trace s).

(** ** The variant with the Today Checker *)

Module Current.

(** [checkRecentPostsForToday(handle)] *)
Definition checkRecentPostsForToday (env : Env) (handle : Handle) : M bool :=
  try_catch
    (data ← fetchJson env (feedRequest handle 5 None);
     date ← now env;
     let today := getUTCDate date in
     match data_feed data with
     | Some posts => mret (somePostOn today posts)
     | None => throw TypeError
     end)
    (λ _, mret false).

(** [calculateStreak(handle)] *)
Definition calculateStreak (env : Env) (fuel : nat) (handle : Handle) : M Z :=
  today ← now env;
  let yesterday := previousDay env today in
  hasPostedYesterday ← getPostsForDay env fuel handle yesterday 3;
  if negb hasPostedYesterday then mret 0
  else countBack env fuel fuel handle yesterday 0.

(** [updateFunc] of [updateOrInsertStreakInfo] *)
Definition updateFunc (env : Env) (fuel : nat) : M unit :=
  try_catch
    (help ← gets (λ s, helpLink (dom s));
     if negb help then throw HelpLinkNotFound
     else
       handle ← getProfile;
       refreshing ← gets isRefreshing;
       (if negb refreshing
        then removeExistingStreakContainers;; appendLoadingIndicator
        else mret tt);;
       hasPostedToday ← checkRecentPostsForToday env handle;
       historical ← calculateStreak env fuel handle;
       let streak := if (hasPostedToday : bool) then historical + 1 else historical in
       date ← now env;
       modify (with_localStorage (Some (mkStreakRecord (Some date) streak)));;
       removeExistingStreakContainers;;
       createStreakDisplay streak hasPostedToday)
    (λ _, showError "Failed to update streak. Please refresh.").

(** [updateOrInsertStreakInfo()] *)
Definition updateOrInsertStreakInfo (env : Env) (fuel : nat) : M unit :=
  pending ← gets debounceTimeout;
  refreshing ← gets isRefreshing;
  (match pending with
   | Some id => if negb refreshing then clearTimeout id else mret tt
   | None => mret tt
   end);;
  if (refreshing : bool) then updateFunc env fuel
  else
    id ← setTimeout;
    modify (with_debounceTimeout (Some id)).

(** The event loop runs the callback of a pending timer. *)
Definition fireTimer (env : Env) (fuel : nat) (id : nat) : M unit :=
  pending ← gets timers;
  if bool_decide (id ∈ pending)
  then clearTimeout id;; updateFunc env fuel
  else mret tt.

(** The texts [refreshStreak] puts into the existing display. *)
Definition markRefreshing (w : StreakDisplay) : M unit :=
  modify (λ s, with_dom
    (mkDom (helpLink (dom s)) (profileLink (dom s))
           (Some (mkStreakDisplay (postedToday w) RefreshingText HourglassIcon))
           (loadingIndicator (dom s)) (streakError (dom s))) s).

(** [refreshStreak()] *)
Definition refreshStreak (env : Env) (fuel : nat) : M unit :=
  refreshing ← gets isRefreshing;
  if (refreshing : bool) then mret tt
  else
    try_finally
      (try_catch
         (modify (with_isRefreshing true);;
          help ← gets (λ s, helpLink (dom s));
          if negb help then throw HelpLinkNotFound
          else
            existingContainer ← gets (λ s, mainContainer (dom s));
            match existingContainer with
            | Some w =>
                markRefreshing w;;
                modify (with_cache ∅);;
                modify (with_localStorage None);;
                sleep 500;;
                updateOrInsertStreakInfo env fuel
            | None => mret tt
            end)
         (λ _, showError "Failed to refresh streak. Please try again."))
      (with_isRefreshing false).

End Current.

(** ** [content.js] *)

Module Legacy.

(** Day of the month of a day number (proleptic Gregorian calendar). *)
Definition dayOfMonth (day : Z) : Z :=
  let z := day + 719468 in
  let era := z `div` 146097 in
  let doe := z - era * 146097 in
  let yoe := (doe - doe `div` 1460 + doe `div` 36524 - doe `div` 146096) `div` 365 in
  let doy := doe - (365 * yoe + yoe `div` 4 - yoe `div` 100) in
  let mp := (5 * doy + 2) `div` 153 in
  doy - (153 * mp + 2) `div` 5 + 1.

(** [date.getDate()]: day of the month in local time. *)
Definition getDate (env : Env) (date : Z) : Z :=
  dayOfMonth (localTime env date `div` msPerDay).

(** [new Date("M/D/YYYY")]: local midnight of that calendar day. *)
Definition parseLocalDate (env : Env) (day : Z) : Z :=
  utcTime env (day * msPerDay).

(** [streakDate === today] and [streakDate < today] compare the stored ISO
    string with a [Date] object. Strict equality of a string and an object is
    false; [<] converts the string with [ToNumber], which gives NaN for an ISO
    timestamp, and a comparison with NaN is false. *)
Definition isoString_strictEq_Date (streakDate today : Z) : bool := false.
Definition isoString_lt_Date (streakDate today : Z) : bool := false.

(** [calculateStreak(handle)] *)
Definition calculateStreak (env : Env) (fuel : nat) (handle : Handle) : M Z :=
  currentDate ← now env;
  countBack env fuel fuel handle currentDate 0.

(** The callback [updateOrInsertStreakInfo] hands to [setTimeout]. *)
Definition updateFunc (env : Env) (fuel : nat) : M unit :=
  try_catch
    (help ← gets (λ s, helpLink (dom s));
     if negb help then throw HelpLinkNotFound
     else
       handle ← getProfile;
       removeExistingStreakContainers;;
       appendLoadingIndicator;;
       date ← now env;
       let today := parseLocalDate env (getUTCDate date) in
       stored ← gets localStorage;
       let bluestreak := default (mkStreakRecord None 0) stored in
       let streakDate := streakDate bluestreak in
       let streakNumber := streakNumber bluestreak in
       let hasPostedToday0 :=
         from_option (λ sd, isoString_strictEq_Date sd today) false streakDate in
       result ←
         (if from_option (λ sd, 1 <? getDate env today - getDate env sd) false streakDate
          then mret (0, false)
          else if from_option (λ sd, isoString_lt_Date sd today) true streakDate
          then
            if from_option (λ sd, getDate env sd =? getDate env today - 1) false streakDate
            then
              date' ← now env;
              hasPostedToday ← getPostsForDay env fuel handle date' 3;
              mret (if (hasPostedToday : bool) then streakNumber + 1 else streakNumber,
                    hasPostedToday)
            else
              streak ← calculateStreak env fuel handle;
              mret (streak, 0 <? streak)
          else mret (streakNumber, hasPostedToday0));
       let streak := result.1 in
       let hasPostedToday := result.2 in
       modify (with_localStorage (Some (mkStreakRecord
         (if hasPostedToday then Some today else streakDate) streak)));;
       removeExistingStreakContainers;;
       createStreakDisplay streak hasPostedToday)
    (λ _, showError "Failed to update streak. Please refresh.").

(** [updateOrInsertStreakInfo()] *)
Definition updateOrInsertStreakInfo : M unit :=
  pending ← gets debounceTimeout;
  (match pending with
   | Some id => clearTimeout id
   | None => mret tt
   end);;
  id ← setTimeout;
  modify (with_debounceTimeout (Some id)).

(** The event loop runs the callback of a pending timer. *)
Definition fireTimer (env : Env) (fuel : nat) (id : nat) : M unit :=
  pending ← gets timers;
  if bool_decide (id ∈ pending)
  then clearTimeout id;; updateFunc env fuel
  else mret tt.

(** [refreshStreak()] *)
Definition refreshStreak : M unit :=
  modify (with_localStorage None);;
  updateOrInsertStreakInfo.

End Legacy.

(** ** Observations on runs and traces *)

Definition value {A} (r : Res A) : option A :=
  match r with
  | Ret a _ => Some a
  | _ => None
  end.

Definition final {A} (r : Res A) : option State :=
  match r with
  | Ret _ s | Throw _ s => Some s
  | Diverge => None
  end.

Definition thrown {A} (r : Res A) : bool :=
  match r with
  | Throw _ _ => true
  | _ => false
  end.

#[global] Instance Request_eq_dec : EqDecision Request.
Proof. solve_decision. Defined.

Definition isFailure (e : Event) : bool :=
  match e with
  | Fetch _ Rejected => true
  | _ => false
  end.

(** Number of fetches of a trace that ended in an exception. *)
Definition failures (t : list Event) : nat := length (filter (λ e, isFailure e = true) t).

(** The fetches of a trace that carry the request [req]. *)
Definition fetchesOf (req : Request) (t : list Event) : list Outcome :=
  omap (λ e, match e with
             | Fetch req' out => if decide (req' = req) then Some out else None
             | Sleep _ => None
             end) t.

(** The delays a lookup that starts with [retries] retries left sleeps, in
    order: [backoff retries], [backoff (retries - 1)], ..., [backoff 1]. *)
Fixpoint backoffDelays (retries : nat) : list Z :=
  match retries with
  | O => []
  | S retries' => backoff retries :: backoffDelays retries'
  end.

(** A trace follows the backoff schedule [delays]: every failed fetch is
    directly followed by the next delay of the schedule and nothing else is
    slept; a failure that finds the schedule used up ends the trace. *)
Fixpoint followsBackoff (delays : list Z) (t : list Event) : bool :=
  match t with
  | [] => true
  | Fetch _ (Body _) :: t' => followsBackoff delays t'
  | Fetch _ Rejected :: t' =>
      match delays, t' with
      | d :: delays', Sleep ms :: t'' => (ms =? d) && followsBackoff delays' t''
      | [], [] => true
      | _, _ => false
      end
  | Sleep _ :: _ => false
  end.

(** Every attempt of a lookup for [handle] opens with the request for the
    first page: the first event of the trace, and each event that follows a
    delay, is a fetch without cursor. *)
Fixpoint startsAfresh (handle : Handle) (opening : bool) (t : list Event) : bool :=
  match t with
  | [] => true
  | Fetch req _ :: t' =>
      (if opening then bool_decide (req = feedRequest handle 100 None) else true)
      && startsAfresh handle false t'
  | Sleep _ :: t' => startsAfresh handle true t'
  end.

(** The trace opens with a fetch of [req]. *)
Definition opensWith (req : Request) (t : list Event) : bool :=
  match t with
  | Fetch req' _ :: _ => bool_decide (req' = req)
  | _ => false
  end.

(** The trace of one attempt of a lookup: answered fetches, closed by one
    rejected fetch exactly when the attempt [failed]. *)
Fixpoint attemptTrace (failed : bool) (t : list Event) : bool :=
  match t with
  | [] => negb failed
  | Fetch _ (Body _) :: t' => attemptTrace failed t'
  | Fetch _ Rejected :: t' => match t' with [] => failed | _ => false end
  | Sleep _ :: _ => false
  end.

(** Pages as one attempt of a lookup sees them. *)
Definition matching (day : Z) (page : FeedData) : bool :=
  somePostOn day (default [] (data_feed page)).

(** The loop goes on after this page: it is not empty, holds no post of the
    day and carries a cursor. *)
Definition continues (day : Z) (page : FeedData) : bool :=
  negb (feedMissingOrEmpty page) && negb (matching day page) && truthy (data_cursor page).

(** The network serves [pages] one after the other to a pagination for
    [handle] that starts at trace position [n] with [cursor]. *)
Fixpoint served (env : Env) (n : nat) (handle : Handle) (cursor : option Cursor)
    (pages : list FeedData) : Prop :=
  match pages with
  | [] => True
  | page :: pages' =>
      net env n (feedRequest handle 100 cursor) = Body page
      ∧ served env (S n) handle (data_cursor page) pages'
  end.

(** The fetch events of that pagination. *)
Fixpoint pageFetches (handle : Handle) (cursor : option Cursor)
    (pages : list FeedData) : list Event :=
  match pages with
  | [] => []
  | page :: pages' =>
      Fetch (feedRequest handle 100 cursor) (Body page)
      :: pageFetches handle (data_cursor page) pages'
  end.

(** The network answers a request the same way at every time. *)
Definition stationary (env : Env) : Prop :=
  ∀ n m req, net env n req = net env m req.

(** One local calendar day before [date] the zone has the offset it has at
    [date]: no change of offset lies between the two. *)
Definition sameOffset (env : Env) (date : Z) : Prop :=
  localOffset env (localTime env date - msPerDay) = utcOffset env date.

(** The zone has no change of offset at all, as far as stepping back a day
    can tell. *)
Definition steadyZone (env : Env) : Prop := ∀ date, sameOffset env date.

(** By how much the offset at [date] exceeds the offset one local calendar
    day before: 3600000 on the day the clocks went forward an hour. *)
Definition offsetGain (env : Env) (date : Z) : Z :=
  utcOffset env date - localOffset env (localTime env date - msPerDay).

(** What the Day-Post Index finds for [day] when it has to ask the network in
    state [s]: the result of one pagination from the first page. *)
Definition indexed (env : Env) (fuel : nat) (handle : Handle) (day : Z) (s : State)
    : option bool :=
  value (paginate env fuel handle day None s).

(** The cache of [s] agrees, for [handle], with what the index finds from
    [s0]. *)
Definition cacheAgrees (env : Env) (fuel : nat) (handle : Handle) (s0 s : State) : Prop :=
  ∀ day b, cache s !! (handle, day) = Some b → indexed env fuel handle day s0 = Some b.

(** Apply [f] to the final state of a run. *)
Definition onState {A} (f : State → State) (r : Res A) : Res A :=
  match r with
  | Ret a s => Ret a (f s)
  | Throw e s => Throw e (f s)
  | Diverge => Diverge
  end.

(** A state with the persisted record hidden. *)
Definition hideRecord (s : State) : State := with_localStorage None s.

(** [m] behaves the same on states that differ in the persisted record only,
    apart from the record its final state holds. *)
Definition ignoresRecord {A} (m : M A) : Prop :=
  ∀ s s', hideRecord s = hideRecord s' → onState hideRecord (m s) = onState hideRecord (m s').

(** A completed run of [m] leaves the observation [f] of the state as it was. *)
Definition preserves {A B} (f : State → B) (m : M A) : Prop :=
  ∀ s s', final (m s) = Some s' → f s' = f s.

(** What a completed run leaves on the page, and the events it logged. *)
Definition shown {A} (r : Res A) : option (option StreakDisplay * list Event) :=
  (λ s, (mainContainer (dom s), trace s)) <$> final r.

(** ** Scenarios *)

Module Scenario.

(** A page that is ready: help link and profile link of "alice" in place,
    nothing cached, nothing persisted, nothing displayed. *)
Definition ready : State :=
  mkState ∅ None false None [] 1%nat (mkDom true (Some "alice") None false None) [].

Definition noon (day : Z) : Z := day * msPerDay + 43200000.

(** A page holding one post at noon of each of [days]. *)
Definition page (days : list Z) (cursor : option Cursor) : FeedData :=
  mkFeedData (Some (map (λ day, mkPost (noon day)) days)) cursor.

Definition noPage : FeedData := mkFeedData None None.

Fixpoint pageAfter (cursor : Cursor) (pages : list FeedData) : FeedData :=
  match pages with
  | p :: rest =>
      if decide (data_cursor p = Some cursor) then default noPage (head rest)
      else pageAfter cursor rest
  | [] => noPage
  end.

(** A reliable network that serves [pages] by cursor, at a fixed time, in a
    zone that keeps UTC. *)
Definition server (pages : list FeedData) (time : Z) : Env :=
  mkEnv (λ _ req, Body (match req_cursor req with
                        | None => default noPage (head pages)
                        | Some cursor => pageAfter cursor pages
                        end))
        (λ _, time) (λ _, 0) (λ _, 0).

(** Posts on days 100, 99, 98 and 97, a gap on day 96, a post on day 95. *)
Definition feedA : list FeedData :=
  [page [100; 100; 99] (Some "c1"); page [98; 97] (Some "c2"); page [95] None].

(** Posts on day 100 and day 98, none on day 99. *)
Definition feedGap : list FeedData := [page [100; 98] None].

(** The two feeds, served reliably at noon of day 100. *)
Definition envA : Env := server feedA (noon 100).
Definition envGap : Env := server feedGap (noon 100).

(** A network that rejects every request except the one issued at trace
    position 6, which it answers with a page that has a cursor. *)
Definition flaky : Env :=
  mkEnv (λ n _, if (n =? 6)%nat then Body (page [100] (Some "c1")) else Rejected)
        (λ _, noon 100) (λ _, 0) (λ _, 0).

(** A network that rejects every request. *)
Definition dead : Env := mkEnv (λ _ _, Rejected) (λ _, noon 100) (λ _, 0) (λ _, 0).

(** Day 100 before and after the post of that day, and the day after. *)
Definition feedBefore : list FeedData := [page [99; 98] None].
Definition feedAfter : list FeedData := [page [100; 99; 98] None].
Definition feedNextDay : list FeedData := [page [101; 100; 99; 98] None].

Definition envBefore : Env := server feedBefore (noon 100).
Definition envAfter : Env := server feedAfter (noon 100).
Definition envNextDay : Env := server feedNextDay (noon 101).

(** New York around 10 March 2024 (day 19792), when the clocks went from
    02:00 to 03:00 local time, at 07:00 UTC: five hours behind UTC before the
    change, four after it. A local time that the change skips is read with
    the offset before it. *)
Definition newYorkUtcOffset (t : Z) : Z :=
  if t <? 19792 * msPerDay + 25200000 then -18000000 else -14400000.
Definition newYorkLocalOffset (l : Z) : Z :=
  if l <? 19792 * msPerDay + 10800000 then -18000000 else -14400000.

(** 23:30 UTC on that day, which is 19:30 in New York. *)
Definition eveningAfterChange : Z := 19792 * msPerDay + 84600000.

(** A feed with one post, of that day, read in New York that evening. *)
Definition envNewYork : Env :=
  mkEnv (net (server [page [19792] None] eveningAfterChange))
        (λ _, eveningAfterChange) newYorkUtcOffset newYorkLocalOffset.

(** The state a completed run ends in. *)
Definition stateOf {A} (r : Res A) : State := default ready (final r).

(** The page after the update sequence has run before the post of day 100,
    in each variant. *)
Definition currentDisplayed : State := stateOf (Current.updateFunc envBefore 5 ready).
Definition legacyDisplayed : State := stateOf (Legacy.updateFunc envBefore 5 ready).

(** A new session of [content.js] on day 101: nothing cached, the record
    persisted on day 100 after the post of that day. *)
Definition legacyNextDay : State :=
  with_localStorage (localStorage (stateOf (Legacy.updateFunc envAfter 5 ready))) ready.

(** [content.js] at the moment the callback of the timer set by a refresh
    starts to run: the timer has left the queue, [debounceTimeout] still
    holds its identifier. *)
Definition legacyRunning : State :=
  stateOf (bind Legacy.refreshStreak (λ _, clearTimeout 1) legacyDisplayed).

End Scenario.

(** ** Frames and further observations *)

(** [m] relates the state it starts in to the state it completes in by [R]. *)
Definition respects {A} (R : State → State → Prop) (m : M A) : Prop :=
  ∀ s s', final (m s) = Some s' → R s s'.

(** From [s] to [s'] nothing happened but lookups and messages on the page:
    record, flag and timers are the same, the links of the page are the same,
    the cache has kept every entry it had and the trace has only grown. *)
Definition onlyLooksUp (s s' : State) : Prop :=
  localStorage s' = localStorage s
  ∧ isRefreshing s' = isRefreshing s
  ∧ debounceTimeout s' = debounceTimeout s
  ∧ timers s' = timers s
  ∧ nextTimer s' = nextTimer s
  ∧ helpLink (dom s') = helpLink (dom s)
  ∧ profileLink (dom s') = profileLink (dom s)
  ∧ cache s ⊆ cache s'
  ∧ trace s `prefix_of` trace s'.

(** The same without a word on record and cache. *)
Definition sameSchedule (s s' : State) : Prop :=
  isRefreshing s' = isRefreshing s
  ∧ debounceTimeout s' = debounceTimeout s
  ∧ timers s' = timers s
  ∧ nextTimer s' = nextTimer s
  ∧ helpLink (dom s') = helpLink (dom s)
  ∧ profileLink (dom s') = profileLink (dom s)
  ∧ trace s `prefix_of` trace s'.

(** A run of [m] that returns leaves the page as it was. *)
Definition keepsPage {A} (m : M A) : Prop :=
  ∀ s a s', m s = Ret a s' → dom s' = dom s.

(** Every request of the trace is for [handle], 100 posts, without replies,
    and carries the cursor of the page answered just before it: none at the
    start and after a failure or a delay, never the empty string. *)
Fixpoint followsCursors (handle : Handle) (cursor : option Cursor) (t : list Event)
    : bool :=
  match t with
  | [] => true
  | Fetch req out :: t' =>
      bool_decide (req = feedRequest handle 100 cursor)
      && negb (bool_decide (cursor = Some ""))
      && followsCursors handle
           (match out with
            | Body data => data_cursor data
            | Rejected => None
            end) t'
  | Sleep _ :: t' => followsCursors handle None t'
  end.

(** The delays of a trace, in order. *)
Definition delaysOf (t : list Event) : list Z :=
  omap (λ e, match e with
             | Sleep ms => Some ms
             | Fetch _ _ => None
             end) t.

(** The timers that are pending are the one [debounceTimeout] names, and
    identifiers in use are below the next one. *)
Definition debounced (s : State) : Prop :=
  (∀ id, id ∈ timers s → debounceTimeout s = Some id)
  ∧ NoDup (timers s)
  ∧ (∀ id, debounceTimeout s = Some id → (id < nextTimer s)%nat).

(** The messages of the two [catch] handlers of the update path. *)
Definition updateFailed : string := "Failed to update streak. Please refresh.".
Definition refreshFailed : string := "Failed to refresh streak. Please try again.".

(** * Properties *)

(** ** One attempt of a lookup *)

(** One turn of the pagination loop. *)
Lemma paginate_S env fuel handle day cursor s :
  paginate env (S fuel) handle day cursor s =
    let req := feedRequest handle 100 cursor in
    let out := net env (length (trace s)) req in
    let s1 := log (Fetch req out) s in
    match out with
    | Rejected => Throw FetchError s1
    | Body data =>
        if continues day data
        then paginate env fuel handle day (data_cursor data) s1
        else Ret (matching day data) s1
    end.
Proof.
  cbn [paginate]. unfold mbind, M_bind, bind, fetchJson. cbv zeta.
  destruct (net env _ _) as [|data]; [done|].
  unfold continues, matching.
  destruct (feedMissingOrEmpty data) eqn:Hempty; cbn [negb andb].
  - unfold feedMissingOrEmpty in Hempty.
    destruct (data_feed data) as [[|]|]; done.
  - destruct (somePostOn _ _); cbn [negb andb]; [done|].
    by destruct (truthy _).
Qed.

(** A completed pagination only adds events: answered fetches, the first for
    the cursor it started with, closed by a rejected fetch when it throws. *)
Lemma paginate_attempt env handle day fuel : ∀ cursor s r s',
  paginate env fuel handle day cursor s = r →
  final r = Some s' →
  ∃ t, s' = with_trace (trace s ++ t) s
       ∧ opensWith (feedRequest handle 100 cursor) t = true
       ∧ attemptTrace (thrown r) t = true.
Proof.
  induction fuel as [|fuel IH]; intros cursor s r s' Hrun Hfinal.
  - cbn in Hrun. by subst r.
  - rewrite paginate_S in Hrun. cbv zeta in Hrun.
    destruct (net env _ _) as [|data] eqn:Hnet.
    + subst r. injection Hfinal as <-.
      eexists [Fetch _ Rejected]. split; [done|].
      split; [by apply bool_decide_eq_true|done].
    + destruct (continues day data).
      * destruct (IH _ _ _ _ Hrun Hfinal) as (t & -> & _ & Hatt).
        exists (Fetch (feedRequest handle 100 cursor) (Body data) :: t).
        split; [|split].
        -- unfold log. cbn. by rewrite <- app_assoc.
        -- by apply bool_decide_eq_true.
        -- done.
      * subst r. injection Hfinal as <-.
        eexists [Fetch _ (Body data)]. split; [done|].
        split; [by apply bool_decide_eq_true|done].
Qed.

Lemma attemptTrace_no_sleep failed t handle :
  attemptTrace failed t = true → startsAfresh handle false t = true.
Proof.
  induction t as [|[req [|data]|ms] t IH]; cbn; try done.
  - by destruct t.
Qed.

Lemma attemptTrace_startsAfresh failed t handle :
  attemptTrace failed t = true →
  opensWith (feedRequest handle 100 None) t = true →
  startsAfresh handle true t = true.
Proof.
  destruct t as [|[req out|ms] t]; cbn; try done.
  intros Hatt ->. cbn.
  destruct out as [|data].
  - by destruct t.
  - by eapply attemptTrace_no_sleep.
Qed.

Lemma startsAfresh_app_sleep handle opening t ms u :
  startsAfresh handle opening (t ++ Sleep ms :: u)
  = startsAfresh handle opening t && startsAfresh handle true u.
Proof.
  revert opening. induction t as [|[req out|ms'] t IH]; intros opening; cbn.
  - done.
  - by rewrite IH, andb_assoc.
  - apply IH.
Qed.

Lemma failures_app t u : failures (t ++ u) = (failures t + failures u)%nat.
Proof. unfold failures. by rewrite filter_app, length_app. Qed.

Lemma attemptTrace_failures failed t :
  attemptTrace failed t = true → failures t = if failed then 1%nat else 0%nat.
Proof.
  induction t as [|[req [|data]|ms] t IH]; cbn; try done.
  - by destruct failed.
  - destruct t; [|done]. by intros ->.
Qed.

Lemma followsBackoff_done delays t :
  attemptTrace false t = true → followsBackoff delays t = true.
Proof.
  induction t as [|[req [|data]|ms] t IH]; cbn; try done.
  by destruct t.
Qed.

Lemma followsBackoff_last t :
  attemptTrace true t = true → followsBackoff [] t = true.
Proof.
  induction t as [|[req [|data]|ms] t IH]; cbn; try done; by destruct t.
Qed.

Lemma followsBackoff_retry d delays t u :
  attemptTrace true t = true →
  followsBackoff (d :: delays) (t ++ Sleep d :: u) = followsBackoff delays u.
Proof.
  induction t as [|[req [|data]|ms] t IH]; cbn; try done.
  destruct t; [|done]. intros _. cbn. by rewrite Z.eqb_refl.
Qed.

Lemma opensWith_app req t u : opensWith req t = true → opensWith req (t ++ u) = true.
Proof. by destruct t as [|[]]. Qed.

(** The two paths of [getPostsForDay]. *)
Lemma getPostsForDay_hit env fuel handle date retries s b :
  cache s !! (handle, getUTCDate date) = Some b →
  getPostsForDay env fuel handle date retries s = Ret b s.
Proof. intros H. destruct retries; cbn; by rewrite H. Qed.

Lemma getPostsForDay_miss env fuel handle date retries s :
  cache s !! (handle, getUTCDate date) = None →
  getPostsForDay env fuel handle date retries s =
    match paginate env fuel handle (getUTCDate date) None s with
    | Ret foundPost s1 =>
        Ret foundPost
          (with_cache (<[(handle, getUTCDate date) := foundPost]> (cache s1)) s1)
    | Throw error s1 =>
        match retries with
        | S retries' =>
            getPostsForDay env fuel handle date retries'
              (log (Sleep (backoff retries)) s1)
        | O => Throw error s1
        end
    | Diverge => Diverge
    end.
Proof. intros H. destruct retries; cbn; by rewrite H. Qed.

(** The shape of a completed lookup that had to ask the network. *)
Lemma lookup_run env fuel handle date : ∀ retries s r s',
  cache s !! (handle, getUTCDate date) = None →
  getPostsForDay env fuel handle date retries s = r →
  final r = Some s' →
  ∃ t, s' = with_cache
              (match value r with
               | Some b => <[(handle, getUTCDate date) := b]> (cache s)
               | None => cache s
               end) (with_trace (trace s ++ t) s)
       ∧ opensWith (feedRequest handle 100 None) t = true
       ∧ followsBackoff (backoffDelays retries) t = true
       ∧ startsAfresh handle true t = true
       ∧ (failures t ≤ S retries)%nat
       ∧ (thrown r = true ↔ failures t = S retries).
Proof.
  induction retries as [|retries IH]; intros s r s' Hmiss Hrun Hfinal;
    rewrite getPostsForDay_miss in Hrun by done;
    destruct (paginate env fuel handle (getUTCDate date) None s) as [b s1|e s1|] eqn:Hpag;
    try (subst r; discriminate).
  - (* no retry left, found *)
    destruct (paginate_attempt _ _ _ _ _ _ _ _ Hpag eq_refl) as (t & -> & Hopen & Hatt).
    subst r. injection Hfinal as <-. exists t. cbn in *.
    rewrite (attemptTrace_failures _ _ Hatt).
    split; [done|]. split; [done|]. split; [by apply followsBackoff_done|].
    split; [by eapply attemptTrace_startsAfresh|]. split; [lia|done].
  - (* no retry left, thrown *)
    destruct (paginate_attempt _ _ _ _ _ _ _ _ Hpag eq_refl) as (t & -> & Hopen & Hatt).
    subst r. injection Hfinal as <-. exists t. cbn in *.
    rewrite (attemptTrace_failures _ _ Hatt).
    split; [done|]. split; [done|]. split; [by apply followsBackoff_last|].
    split; [by eapply attemptTrace_startsAfresh|]. done.
  - (* found *)
    destruct (paginate_attempt _ _ _ _ _ _ _ _ Hpag eq_refl) as (t & -> & Hopen & Hatt).
    subst r. injection Hfinal as <-. exists t. cbn in *.
    rewrite (attemptTrace_failures _ _ Hatt).
    split; [done|]. split; [done|]. split; [by apply followsBackoff_done|].
    split; [by eapply attemptTrace_startsAfresh|]. split; [lia|done].
  - (* thrown, retried *)
    destruct (paginate_attempt _ _ _ _ _ _ _ _ Hpag eq_refl) as (t & -> & Hopen & Hatt).
    cbn in Hatt.
    destruct (IH (log (Sleep (backoff (S retries))) (with_trace (trace s ++ t) s))
                _ _ Hmiss Hrun Hfinal) as (u & -> & _ & Hback & Hfresh & Hle & Hiff).
    exists (t ++ Sleep (backoff (S retries)) :: u).
    rewrite failures_app. cbn [failures filter] in *.
    change (failures (Sleep (backoff (S retries)) :: u)) with (failures u).
    rewrite (attemptTrace_failures _ _ Hatt).
    split; [|split; [|split; [|split; [|split]]]].
    + cbn. by rewrite <- !app_assoc.
    + by apply opensWith_app.
    + cbn [backoffDelays]. by rewrite followsBackoff_retry.
    + rewrite startsAfresh_app_sleep, Hfresh.
      by rewrite (attemptTrace_startsAfresh _ _ _ Hatt Hopen).
    + lia.
    + rewrite Hiff. lia.
Qed.

(** Claim C5. The Day-Post Index lookup is idempotent per (handle, day). Once
    a call of [getPostsForDay] has completed with a boolean, true or false,
    that boolean is memoized under the pair, and every later call for a date
    of the same UTC day returns it and leaves the whole state as it is: the
    trace gains no event, so no request is issued, whatever the network would
    have answered and whatever [retries] says. *)
Theorem getPostsForDay_idempotent env fuel handle date retries s b s' :
  getPostsForDay env fuel handle date retries s = Ret b s' →
  cache s' !! (handle, getUTCDate date) = Some b
  ∧ ∀ env' fuel' date' retries',
      getUTCDate date' = getUTCDate date →
      getPostsForDay env' fuel' handle date' retries' s' = Ret b s'.
Proof.
  intros Hrun.
  assert (cache s' !! (handle, getUTCDate date) = Some b) as Hmemo.
  { destruct (cache s !! (handle, getUTCDate date)) as [cached|] eqn:Hcache.
    - rewrite (getPostsForDay_hit _ _ _ _ _ _ _ Hcache) in Hrun.
      by injection Hrun as -> ->.
    - destruct (lookup_run _ _ _ _ _ _ _ s' Hcache Hrun eq_refl) as (t & -> & _).
      cbn. apply lookup_insert_eq. }
  split; [done|].
  intros env' fuel' date' retries' Hday.
  apply getPostsForDay_hit. by rewrite Hday.
Qed.

Lemma getPostsForDay_idempotent_witness :
  ∃ s', getPostsForDay Scenario.envA 5 "alice" (Scenario.noon 99) 3 Scenario.ready
        = Ret true s'
        ∧ cache s' !! ("alice", 99) = Some true
        ∧ getPostsForDay Scenario.dead 0 "alice" (Scenario.noon 99 + 1) 0 s'
          = Ret true s'.
Proof.
  eexists. split; [vm_compute; reflexivity|].
  destruct (getPostsForDay_idempotent Scenario.envA 5 "alice" (Scenario.noon 99) 3
              Scenario.ready true _ ltac:(vm_compute; reflexivity)) as [Hmemo Hagain].
  split; [exact Hmemo|].
  apply Hagain. vm_compute; reflexivity.
Defined.

(** Claim C10. When [getPostsForDay] lets an error through, the cache is
    exactly what it was before the call and holds nothing for the pair. A
    later call for the pair therefore goes to the network: every completed
    later call has logged, first of all, the request for the first page, and
    when that later pagination succeeds its answer is returned and memoized. *)
Theorem getPostsForDay_failure_not_memoized env fuel handle date retries s e s' :
  getPostsForDay env fuel handle date retries s = Throw e s' →
  cache s' = cache s
  ∧ cache s' !! (handle, getUTCDate date) = None
  ∧ ∀ env' fuel' retries',
      (∀ s'', final (getPostsForDay env' fuel' handle date retries' s') = Some s'' →
         ∃ t, trace s'' = trace s' ++ t
              ∧ opensWith (feedRequest handle 100 None) t = true)
      ∧ (∀ found s1,
           paginate env' fuel' handle (getUTCDate date) None s' = Ret found s1 →
           getPostsForDay env' fuel' handle date retries' s'
           = Ret found (with_cache (<[(handle, getUTCDate date) := found]> (cache s1)) s1)).
Proof.
  intros Hrun.
  destruct (cache s !! (handle, getUTCDate date)) as [cached|] eqn:Hcache.
  { by rewrite (getPostsForDay_hit _ _ _ _ _ _ _ Hcache) in Hrun. }
  destruct (lookup_run _ _ _ _ _ _ _ s' Hcache Hrun eq_refl) as (t & Hs' & _).
  cbn [value] in Hs'.
  assert (cache s' = cache s) as Hsame by (by rewrite Hs').
  assert (cache s' !! (handle, getUTCDate date) = None) as Hmiss by (by rewrite Hsame).
  split; [done|]. split; [done|].
  intros env' fuel' retries'. split.
  - intros s'' Hfinal.
    destruct (lookup_run env' fuel' handle date retries' s' _ s'' Hmiss eq_refl Hfinal)
      as (u & -> & Hopen & _).
    by exists u.
  - intros found s1 Hpag.
    rewrite getPostsForDay_miss by done. by rewrite Hpag.
Qed.

Lemma getPostsForDay_failure_not_memoized_witness :
  ∃ s', getPostsForDay Scenario.dead 1 "alice" (Scenario.noon 99) 3 Scenario.ready
        = Throw FetchError s'
        ∧ cache s' = cache Scenario.ready
        ∧ cache s' !! ("alice", 99) = None.
Proof.
  eexists. split; [vm_compute; reflexivity|].
  destruct (getPostsForDay_failure_not_memoized Scenario.dead 1 "alice"
              (Scenario.noon 99) 3 Scenario.ready FetchError _
              ltac:(vm_compute; reflexivity)) as (Hsame & Hmiss & _).
  split; [exact Hsame|exact Hmiss].
Defined.

(** Claim C9. A failed page fetch re-invokes the whole lookup, and the lookup
    has one retry budget. For a lookup that misses the cache: when the
    pagination throws, at whatever page, the call with [S retries] is the call
    with [retries] on the state left by the failed attempt plus the delay, with
    no cursor carried over; and in the trace of a completed lookup every
    attempt opens with the request for the first page (no cursor), at most
    [retries + 1] fetches failed, counted over all pages, and the lookup
    throws exactly when that many failed. *)
Theorem getPostsForDay_retry_restarts env fuel handle date retries s :
  cache s !! (handle, getUTCDate date) = None →
  (∀ error s1,
     paginate env fuel handle (getUTCDate date) None s = Throw error s1 →
     getPostsForDay env fuel handle date (S retries) s
     = getPostsForDay env fuel handle date retries (log (Sleep (backoff (S retries))) s1))
  ∧ (∀ s', final (getPostsForDay env fuel handle date retries s) = Some s' →
       ∃ t, trace s' = trace s ++ t
            ∧ startsAfresh handle true t = true
            ∧ (failures t ≤ S retries)%nat
            ∧ (thrown (getPostsForDay env fuel handle date retries s) = true
               ↔ failures t = S retries)).
Proof.
  intros Hmiss. split.
  - intros error s1 Hpag. rewrite getPostsForDay_miss by done. by rewrite Hpag.
  - intros s' Hfinal.
    destruct (lookup_run _ _ _ _ _ _ _ s' Hmiss eq_refl Hfinal)
      as (t & -> & _ & _ & Hfresh & Hle & Hiff).
    by exists t.
Qed.

Lemma getPostsForDay_retry_restarts_witness :
  cache Scenario.ready !! ("alice", 99) = None
  ∧ ∃ s' t, getPostsForDay Scenario.flaky 5 "alice" (Scenario.noon 99) 3
              Scenario.ready = Throw FetchError s'
            ∧ trace s' = trace Scenario.ready ++ t
            ∧ startsAfresh "alice" true t = true
            ∧ failures t = 4%nat.
Proof.
  split; [reflexivity|].
  destruct (getPostsForDay_retry_restarts Scenario.flaky 5 "alice" (Scenario.noon 99) 3
              Scenario.ready eq_refl) as [_ Hrun].
  destruct (Hrun _ ltac:(vm_compute; reflexivity)) as (t & Htrace & Hfresh & _ & Hiff).
  eexists _, t. split; [vm_compute; reflexivity|].
  split; [exact Htrace|]. split; [exact Hfresh|].
  apply Hiff. vm_compute; reflexivity.
Defined.

(** Claim C4. (amended) The retries of [getPostsForDay] are counted per lookup.
    For a lookup called with the default 3 retries that misses the cache, the
    trace of a completed call follows the schedule 1000 ms, 2000 ms, 4000 ms:
    the first, second and third failed fetch are each directly followed by
    that delay and nothing else is slept, at most 4 fetches fail, and the call
    throws exactly when 4 failed, the fourth failure being the last event.
    When the network rejects every request the call does throw, after exactly
    four fetches of the first page separated by those three delays. *)
Theorem getPostsForDay_backoff env fuel handle date s :
  cache s !! (handle, getUTCDate date) = None →
  (∀ s', final (getPostsForDay env fuel handle date 3 s) = Some s' →
     ∃ t, trace s' = trace s ++ t
          ∧ followsBackoff [1000; 2000; 4000] t = true
          ∧ (failures t ≤ 4)%nat
          ∧ (thrown (getPostsForDay env fuel handle date 3 s) = true
             ↔ failures t = 4%nat))
  ∧ ((∀ n req, net env n req = Rejected) →
     let first := Fetch (feedRequest handle 100 None) Rejected in
     getPostsForDay env (S fuel) handle date 3 s
     = Throw FetchError
         (with_trace (trace s ++ [first; Sleep 1000; first; Sleep 2000;
                                  first; Sleep 4000; first]) s)).
Proof.
  intros Hmiss. split.
  - intros s' Hfinal.
    destruct (lookup_run _ _ _ _ _ _ _ s' Hmiss eq_refl Hfinal)
      as (t & -> & _ & Hback & _ & Hle & Hiff).
    by exists t.
  - intros Hdead first.
    assert (∀ s0, paginate env (S fuel) handle (getUTCDate date) None s0
                  = Throw FetchError (log first s0)) as Hpag.
    { intros s0. rewrite paginate_S. cbv zeta. by rewrite Hdead. }
    do 4 (rewrite getPostsForDay_miss by done; rewrite Hpag).
    unfold log, backoff. cbn. by rewrite <- !app_assoc.
Qed.

Lemma getPostsForDay_backoff_witness :
  cache Scenario.ready !! ("alice", 99) = None
  ∧ ∃ s', getPostsForDay Scenario.dead 1 "alice" (Scenario.noon 99) 3 Scenario.ready
          = Throw FetchError s'
          ∧ trace s' = [Fetch (feedRequest "alice" 100 None) Rejected; Sleep 1000;
                        Fetch (feedRequest "alice" 100 None) Rejected; Sleep 2000;
                        Fetch (feedRequest "alice" 100 None) Rejected; Sleep 4000;
                        Fetch (feedRequest "alice" 100 None) Rejected].
Proof.
  split; [reflexivity|].
  destruct (getPostsForDay_backoff Scenario.dead 0 "alice" (Scenario.noon 99)
              Scenario.ready eq_refl) as [_ Hdead].
  eexists. split; [apply Hdead; reflexivity|]. reflexivity.
Defined.

(** The budget is not per page fetch. Three fetches of the first page are
    rejected, the fourth attempt gets the first page, and the fetch of the
    second page is rejected: that first failure of the second-page fetch,
    which follows an answered fetch, goes to the caller at once; the fetch is
    attempted once and no delay follows it. *)
Lemma retry_budget_is_not_per_page :
  thrown (getPostsForDay Scenario.flaky 5 "alice" (Scenario.noon 99) 3 Scenario.ready)
  = true
  ∧ trace <$> final (getPostsForDay Scenario.flaky 5 "alice" (Scenario.noon 99) 3
                       Scenario.ready)
    = Some [Fetch (feedRequest "alice" 100 None) Rejected; Sleep 1000;
            Fetch (feedRequest "alice" 100 None) Rejected; Sleep 2000;
            Fetch (feedRequest "alice" 100 None) Rejected; Sleep 4000;
            Fetch (feedRequest "alice" 100 None) (Body (Scenario.page [100] (Some "c1")));
            Fetch (feedRequest "alice" 100 (Some "c1")) Rejected]
  ∧ fetchesOf (feedRequest "alice" 100 (Some "c1"))
      <$> (trace <$> final (getPostsForDay Scenario.flaky 5 "alice" (Scenario.noon 99) 3
                              Scenario.ready))
    = Some [Rejected].
Proof. repeat split; vm_compute; reflexivity. Qed.

(** ** Pagination and the Today Checker *)

(** A pagination that is served a run of pages follows them to the first one
    that does not continue. *)
Lemma paginate_served env handle day : ∀ pages last fuel cursor s,
  (length pages < fuel)%nat →
  served env (length (trace s)) handle cursor (pages ++ [last]) →
  Forall (λ page, continues day page = true) pages →
  continues day last = false →
  paginate env fuel handle day cursor s
  = Ret (matching day last)
        (with_trace (trace s ++ pageFetches handle cursor (pages ++ [last])) s).
Proof.
  induction pages as [|page pages IH]; intros last fuel cursor s Hfuel Hserved Hcont Hlast;
    (destruct fuel as [|fuel]; [cbn in Hfuel; lia|]);
    rewrite paginate_S; cbv zeta; destruct Hserved as [-> Hserved].
  - by rewrite Hlast.
  - apply Forall_cons in Hcont as [-> Hcont].
    rewrite (IH last fuel (data_cursor page) (log _ s)).
    + cbn. by rewrite <- app_assoc.
    + cbn in Hfuel. lia.
    + cbn. rewrite length_app. cbn. by rewrite Nat.add_1_r.
    + done.
    + done.
Qed.

(** Claim C6. Pagination halts at the first page that decides the lookup. When
    the network serves [pages] and then [last], where every page of [pages]
    is non-empty, holds no post of the target day and carries a cursor, and
    [last] does not (it holds a post of the day, or is empty, or carries no
    cursor), [getPostsForDay] returns after exactly those fetches, having
    followed the cursors, with the answer memoized. The answer is true exactly
    when [last] holds a post whose UTC day is the target day, and false
    exactly when [last] is empty or has neither such a post nor a cursor. *)
Theorem getPostsForDay_halts_at_first_match env fuel handle date retries s pages last :
  cache s !! (handle, getUTCDate date) = None →
  (length pages < fuel)%nat →
  served env (length (trace s)) handle None (pages ++ [last]) →
  Forall (λ page, continues (getUTCDate date) page = true) pages →
  continues (getUTCDate date) last = false →
  ∃ found,
    getPostsForDay env fuel handle date retries s
    = Ret found
        (with_cache (<[(handle, getUTCDate date) := found]> (cache s))
           (with_trace (trace s ++ pageFetches handle None (pages ++ [last])) s))
    ∧ (found = true ↔
       ∃ posts post, data_feed last = Some posts ∧ post ∈ posts
                     ∧ getUTCDate (indexedAt post) = getUTCDate date)
    ∧ (found = false ↔
       feedMissingOrEmpty last = true
       ∨ (matching (getUTCDate date) last = false ∧ truthy (data_cursor last) = false)).
Proof.
  intros Hmiss Hfuel Hserved Hcont Hlast.
  exists (matching (getUTCDate date) last). split; [|split].
  - rewrite getPostsForDay_miss by done.
    by rewrite (paginate_served _ _ _ _ _ _ _ _ Hfuel Hserved Hcont Hlast).
  - unfold matching, somePostOn. rewrite existsb_exists. split.
    + intros (post & Hin & Heq). destruct (data_feed last) as [posts|]; [|done].
      exists posts, post. split; [done|]. split; [by apply list_elem_of_In|lia].
    + intros (posts & post & -> & Hin & Heq). exists post.
      split; [by apply list_elem_of_In|]. cbn. lia.
  - unfold continues in Hlast. unfold matching in *.
    destruct (feedMissingOrEmpty last) eqn:Hempty.
    + unfold feedMissingOrEmpty in Hempty.
      destruct (data_feed last) as [[|]|]; try done; cbn; tauto.
    + destruct (somePostOn _ _); cbn in *; [|destruct (truthy _); try done].
      * split; [done|]. intros [|[]]; done.
      * split; [|done]. intros _. by right.
Qed.

Lemma getPostsForDay_halts_at_first_match_witness :
  ∃ s', getPostsForDay Scenario.envA 5 "alice" (Scenario.noon 98) 3 Scenario.ready
        = Ret true s'
        ∧ trace s'
          = [Fetch (feedRequest "alice" 100 None)
               (Body (Scenario.page [100; 100; 99] (Some "c1")));
             Fetch (feedRequest "alice" 100 (Some "c1"))
               (Body (Scenario.page [98; 97] (Some "c2")))].
Proof.
  destruct (getPostsForDay_halts_at_first_match Scenario.envA 5 "alice"
              (Scenario.noon 98) 3 Scenario.ready
              [Scenario.page [100; 100; 99] (Some "c1")]
              (Scenario.page [98; 97] (Some "c2")))
    as (found & Hrun & Hfound & _).
  - reflexivity.
  - cbn. lia.
  - cbn. done.
  - repeat constructor.
  - reflexivity.
  - assert (found = true) as ->.
    { apply Hfound.
      exists [mkPost (Scenario.noon 98); mkPost (Scenario.noon 97)],
        (mkPost (Scenario.noon 98)).
      split; [reflexivity|]. split; [apply list_elem_of_here|reflexivity]. }
    eexists. split; [exact Hrun|reflexivity].
Defined.

(** Claim C8. [checkRecentPostsForToday] issues exactly one fetch, for the 5
    most recent posts without replies and without cursor, never throws, and
    returns true exactly when the fetch was answered with a body whose feed
    holds a post of the UTC day read from the clock after the answer. A
    rejected fetch, a body that does not parse and a body without feed all
    give false. *)
Theorem checkRecentPostsForToday_fails_open env handle s :
  let req := mkRequest handle 5 "posts_no_replies" None in
  let out := net env (length (trace s)) req in
  let s' := with_trace (trace s ++ [Fetch req out]) s in
  let today := getUTCDate (clock env (length (trace s'))) in
  ∃ posted,
    Current.checkRecentPostsForToday env handle s = Ret posted s'
    ∧ (posted = true ↔
       ∃ data posts post, out = Body data ∧ data_feed data = Some posts
                          ∧ post ∈ posts ∧ getUTCDate (indexedAt post) = today).
Proof.
  intros req out s' today.
  unfold Current.checkRecentPostsForToday, try_catch, mbind, M_bind, bind, fetchJson, now.
  cbv zeta. fold req. change (feedRequest handle 5 None) with req. fold out.
  destruct out as [|[[posts|] cursor]] eqn:Hout.
  - exists false. split; [done|]. split; [done|]. by intros (? & ? & ? & ? & _).
  - exists (somePostOn today posts). split; [done|].
    unfold somePostOn. rewrite existsb_exists. split.
    + intros (post & Hin & Heq). exists (mkFeedData (Some posts) cursor), posts, post.
      repeat split; [by apply list_elem_of_In|lia].
    + intros (data & posts' & post & [= <-] & [= <-] & Hin & Heq). exists post.
      split; [by apply list_elem_of_In|]. lia.
  - exists false. split; [done|]. split; [done|].
    by intros (data & posts' & post & [= <-] & ? & _).
Qed.

(** ** The streak calculator over a reliable index *)

(** Stepping a date one local calendar day back moves the instant by 24
    hours less what the offset has gained since. *)
Lemma previousDay_offsetGain env date :
  previousDay env date = date - msPerDay + offsetGain env date.
Proof. unfold previousDay, utcTime, offsetGain, localTime. lia. Qed.

(** Where the offset is the same, stepping a date one local calendar day
    back moves its UTC day back by one. *)
Lemma getUTCDate_previousDay env date :
  sameOffset env date → getUTCDate (previousDay env date) = getUTCDate date - 1.
Proof.
  intros Hsame. rewrite previousDay_offsetGain.
  unfold offsetGain. rewrite Hsame. unfold getUTCDate, msPerDay.
  replace (date - 86400000 + (utcOffset env date - utcOffset env date))
    with (date + (-1) * 86400000) by lia.
  rewrite Z.div_add by lia. lia.
Qed.

Lemma paginate_stationary env handle day fuel :
  stationary env →
  ∀ cursor s s',
    value (paginate env fuel handle day cursor s)
    = value (paginate env fuel handle day cursor s').
Proof.
  intros Hst. induction fuel as [|fuel IH]; intros cursor s s'; [done|].
  rewrite !paginate_S. cbv zeta.
  rewrite (Hst (length (trace s)) (length (trace s'))).
  destruct (net env _ _) as [|data]; [done|].
  destruct (continues day data); [apply IH|done].
Qed.

(** Over a stationary network, what the index finds does not depend on the
    state it is asked in; [s0] is the state of reference. *)
Section ReliableIndex.
Context (env : Env) (fuel : nat) (handle : Handle) (s0 : State).
Hypothesis Hst : stationary env.
Hypothesis Hzone : steadyZone env.

Lemma lookup_indexed date retries s b :
  cacheAgrees env fuel handle s0 s →
  indexed env fuel handle (getUTCDate date) s0 = Some b →
  ∃ s', getPostsForDay env fuel handle date retries s = Ret b s'
        ∧ cacheAgrees env fuel handle s0 s'.
Proof.
  intros Hag Hidx.
  destruct (cache s !! (handle, getUTCDate date)) as [cached|] eqn:Hcache.
  - exists s. rewrite (getPostsForDay_hit _ _ _ _ _ _ _ Hcache).
    apply Hag in Hcache. split; [congruence|done].
  - rewrite getPostsForDay_miss by done.
    unfold indexed in Hidx.
    rewrite (paginate_stationary env handle _ fuel Hst None s0 s) in Hidx.
    destruct (paginate env fuel handle (getUTCDate date) None s) as [b' s1| |] eqn:Hpag;
      try done.
    injection Hidx as ->.
    destruct (paginate_attempt _ _ _ _ _ _ _ s1 Hpag eq_refl) as (t & -> & _).
    eexists. split; [done|].
    intros day b'. cbn.
    destruct (decide (day = getUTCDate date)) as [->|Hne].
    + rewrite lookup_insert_eq. intros [= <-].
      unfold indexed. rewrite (paginate_stationary env handle _ fuel Hst None s0 s).
      by rewrite Hpag.
    + rewrite lookup_insert_ne by congruence. apply Hag.
Qed.

Lemma countBack_run : ∀ (k n : nat) currentDate streak s,
  (k < n)%nat →
  cacheAgrees env fuel handle s0 s →
  (∀ i : nat, (i < k)%nat →
     indexed env fuel handle (getUTCDate currentDate - Z.of_nat i) s0 = Some true) →
  indexed env fuel handle (getUTCDate currentDate - Z.of_nat k) s0 = Some false →
  ∃ s', countBack env fuel n handle currentDate streak s = Ret (streak + Z.of_nat k) s'.
Proof.
  induction k as [|k IH]; intros n currentDate streak s Hn Hag Hrun Hgap;
    (destruct n as [|n]; [lia|]); cbn [countBack];
    unfold mbind, M_bind, bind, try_catch.
  - rewrite Z.sub_0_r in Hgap.
    destruct (lookup_indexed currentDate 3 s false Hag Hgap) as (s' & -> & _).
    exists s'. cbn. unfold mret, M_ret, ret. by rewrite Z.add_0_r.
  - assert (indexed env fuel handle (getUTCDate currentDate) s0 = Some true) as Hfirst.
    { specialize (Hrun 0%nat ltac:(lia)). by rewrite Z.sub_0_r in Hrun. }
    destruct (lookup_indexed currentDate 3 s true Hag Hfirst) as (s1 & -> & Hag1).
    cbn [negb].
    destruct (IH n (previousDay env currentDate) (streak + 1) s1) as (s' & ->).
    + lia.
    + done.
    + intros i Hi. rewrite getUTCDate_previousDay by apply Hzone.
      specialize (Hrun (S i) ltac:(lia)).
      by replace (getUTCDate currentDate - 1 - Z.of_nat i)
        with (getUTCDate currentDate - Z.of_nat (S i)) by lia.
    + rewrite getUTCDate_previousDay by apply Hzone.
      by replace (getUTCDate currentDate - 1 - Z.of_nat k)
        with (getUTCDate currentDate - Z.of_nat (S k)) by lia.
    + exists s'. f_equal. lia.
Qed.
End ReliableIndex.




(** ** The update sequence does not depend on the persisted record *)

(** States that agree up to the persisted record agree on every other field. *)
Lemma hideRecord_fields s s' :
  hideRecord s = hideRecord s' →
  cache s = cache s' ∧ isRefreshing s = isRefreshing s'
  ∧ debounceTimeout s = debounceTimeout s' ∧ timers s = timers s'
  ∧ nextTimer s = nextTimer s' ∧ dom s = dom s' ∧ trace s = trace s'.
Proof. intros [= -> -> -> -> -> -> ->]. done. Qed.

Lemma hideRecord_intro s s' :
  cache s = cache s' → isRefreshing s = isRefreshing s' →
  debounceTimeout s = debounceTimeout s' → timers s = timers s' →
  nextTimer s = nextTimer s' → dom s = dom s' → trace s = trace s' →
  hideRecord s = hideRecord s'.
Proof. unfold hideRecord, with_localStorage. by intros -> -> -> -> -> -> ->. Qed.

Lemma ignores_ret {A} (a : A) : ignoresRecord (ret a).
Proof. intros s s' H. unfold ret, onState. by rewrite H. Qed.

Lemma ignores_throw {A} e : ignoresRecord (@throw A e).
Proof. intros s s' H. unfold throw, onState. by rewrite H. Qed.

Lemma ignores_bind {A B} (m : M A) (k : A → M B) :
  ignoresRecord m → (∀ a, ignoresRecord (k a)) → ignoresRecord (bind m k).
Proof.
  intros Hm Hk s s' H. unfold bind. specialize (Hm s s' H).
  destruct (m s) as [a s1|e s1|], (m s') as [a' s1'|e' s1'|]; try done.
  - cbn [onState] in Hm.
    assert (a = a' ∧ hideRecord s1 = hideRecord s1') as [-> Hs] by (split; congruence).
    by apply Hk.
  - cbn [onState] in *. congruence.
Qed.

Lemma ignores_try_catch {A} (m : M A) (h : Error → M A) :
  ignoresRecord m → (∀ e, ignoresRecord (h e)) → ignoresRecord (try_catch m h).
Proof.
  intros Hm Hh s s' H. unfold try_catch. specialize (Hm s s' H).
  destruct (m s) as [a s1|e s1|], (m s') as [a' s1'|e' s1'|]; try done.
  cbn [onState] in Hm.
  assert (e = e' ∧ hideRecord s1 = hideRecord s1') as [-> Hs] by (split; congruence).
  by apply Hh.
Qed.

Lemma ignores_modify (f : State → State) :
  (∀ s s', hideRecord s = hideRecord s' → hideRecord (f s) = hideRecord (f s')) →
  ignoresRecord (modify f).
Proof. intros Hf s s' H. unfold modify, onState. by rewrite (Hf s s' H). Qed.

Lemma ignores_gets {A} (f : State → A) :
  (∀ s s', hideRecord s = hideRecord s' → f s = f s') → ignoresRecord (gets f).
Proof. intros Hf s s' H. unfold gets, onState. by rewrite (Hf s s' H), H. Qed.

Lemma ignores_now env : ignoresRecord (now env).
Proof.
  intros s s' H. unfold now, onState.
  destruct (hideRecord_fields _ _ H) as (_ & _ & _ & _ & _ & _ & ->). by rewrite H.
Qed.

Lemma ignores_fetchJson env req : ignoresRecord (fetchJson env req).
Proof.
  intros s s' H. unfold fetchJson. cbv zeta.
  destruct (hideRecord_fields _ _ H) as (Hc & Hr & Hd & Ht & Hn & Hdom & Htr).
  rewrite Htr.
  assert (hideRecord (log (Fetch req (net env (length (trace s')) req)) s)
          = hideRecord (log (Fetch req (net env (length (trace s')) req)) s')) as Hlog.
  { apply hideRecord_intro; cbn; congruence. }
  destruct (net env _ _); unfold onState; by rewrite Hlog.
Qed.

Lemma ignores_paginate env handle day fuel : ∀ cursor,
  ignoresRecord (paginate env fuel handle day cursor).
Proof.
  induction fuel as [|fuel IH]; intros cursor; cbn [paginate]; [done|].
  apply ignores_bind; [apply ignores_fetchJson|]. intros data.
  destruct (feedMissingOrEmpty data); [apply ignores_ret|].
  destruct (negb _ && _); [apply IH|apply ignores_ret].
Qed.

Lemma ignores_getPostsForDay env fuel handle date : ∀ retries,
  ignoresRecord (getPostsForDay env fuel handle date retries).
Proof.
  induction retries as [|retries IH]; intros s s' H;
    destruct (hideRecord_fields _ _ H) as (Hc & _);
    (destruct (cache s !! (handle, getUTCDate date)) as [cached|] eqn:Hcache;
     [ rewrite !(getPostsForDay_hit _ _ _ _ _ _ cached) by congruence;
       unfold onState; by rewrite H
     | rewrite !getPostsForDay_miss by congruence ]);
    pose proof (ignores_paginate env handle (getUTCDate date) fuel None s s' H) as Hpag;
    destruct (paginate _ _ _ _ _ s) as [b s1|e s1|],
             (paginate _ _ _ _ _ s') as [b' s1'|e' s1'|]; try done;
    cbn [onState] in Hpag;
    (assert (hideRecord s1 = hideRecord s1') as Hs by congruence);
    try (assert (b = b') as -> by congruence);
    try (assert (e = e') as -> by congruence);
    destruct (hideRecord_fields _ _ Hs) as (Hc1 & Hr1 & Hd1 & Ht1 & Hn1 & Hdom1 & Htr1).
  - unfold onState. f_equal. apply hideRecord_intro; cbn; congruence.
  - unfold onState. f_equal. apply hideRecord_intro; cbn; congruence.
  - apply IH. apply hideRecord_intro; cbn; congruence.
Qed.

Lemma ignores_dom_update (f : Dom → Dom) :
  ignoresRecord (modify (λ s, with_dom (f (dom s)) s)).
Proof.
  apply ignores_modify. intros s s' H.
  destruct (hideRecord_fields _ _ H) as (Hc & Hr & Hd & Ht & Hn & Hdom & Htr).
  apply hideRecord_intro; cbn; congruence.
Qed.

Lemma ignores_showError message : ignoresRecord (showError message).
Proof.
  exact (ignores_dom_update (λ d, mkDom (helpLink d) (profileLink d) (mainContainer d)
    (loadingIndicator d) (if helpLink d then Some message else None))).
Qed.

Lemma ignores_removeExisting : ignoresRecord removeExistingStreakContainers.
Proof.
  exact (ignores_dom_update (λ d, mkDom (helpLink d) (profileLink d) None false None)).
Qed.

Lemma ignores_appendLoading : ignoresRecord appendLoadingIndicator.
Proof.
  exact (ignores_dom_update (λ d, mkDom (helpLink d) (profileLink d) (mainContainer d)
    true (streakError d))).
Qed.

Lemma ignores_createStreakDisplay streak posted :
  ignoresRecord (createStreakDisplay streak posted).
Proof.
  exact (ignores_dom_update (λ d, mkDom (helpLink d) (profileLink d)
    (Some (mkStreakDisplay posted (StreakText streak) RefreshIcon))
    (loadingIndicator d) (streakError d))).
Qed.

Lemma ignores_getProfile : ignoresRecord getProfile.
Proof.
  intros s s' H. unfold getProfile.
  destruct (hideRecord_fields _ _ H) as (_ & _ & _ & _ & _ & -> & _).
  destruct (profileLink (dom s')); unfold onState; by rewrite H.
Qed.

Lemma ignores_countBack env pfuel handle fuel : ∀ currentDate streak,
  ignoresRecord (countBack env pfuel fuel handle currentDate streak).
Proof.
  induction fuel as [|fuel IH]; intros currentDate streak; cbn [countBack]; [done|].
  apply ignores_bind.
  - apply ignores_try_catch; [apply ignores_getPostsForDay|]. intros e.
    apply ignores_bind; [apply ignores_showError|]. intros _. apply ignores_throw.
  - intros hasPosted. destruct hasPosted; cbn [negb]; [apply IH|apply ignores_ret].
Qed.

Lemma ignores_calculateStreak env fuel handle :
  ignoresRecord (Current.calculateStreak env fuel handle).
Proof.
  apply ignores_bind; [apply ignores_now|]. intros today.
  apply ignores_bind; [apply ignores_getPostsForDay|]. intros posted.
  destruct posted; cbn [negb]; [apply ignores_countBack|apply ignores_ret].
Qed.

Lemma ignores_checkRecent env handle :
  ignoresRecord (Current.checkRecentPostsForToday env handle).
Proof.
  apply ignores_try_catch; [|intros _; apply ignores_ret].
  apply ignores_bind; [apply ignores_fetchJson|]. intros data.
  apply ignores_bind; [apply ignores_now|]. intros date.
  destruct (data_feed data); [apply ignores_ret|apply ignores_throw].
Qed.

Lemma ignores_updateFunc env fuel : ignoresRecord (Current.updateFunc env fuel).
Proof.
  apply ignores_try_catch; [|intros _; apply ignores_showError].
  apply ignores_bind.
  { apply ignores_gets. intros s s' H.
    by destruct (hideRecord_fields _ _ H) as (_ & _ & _ & _ & _ & -> & _). }
  intros help. destruct help; cbn [negb]; [|apply ignores_throw].
  apply ignores_bind; [apply ignores_getProfile|]. intros handle.
  apply ignores_bind.
  { apply ignores_gets. intros s s' H.
    by destruct (hideRecord_fields _ _ H) as (_ & -> & _). }
  intros refreshing.
  apply ignores_bind.
  { destruct refreshing; cbn [negb]; [apply ignores_ret|].
    apply ignores_bind; [apply ignores_removeExisting|]. intros _.
    apply ignores_appendLoading. }
  intros _.
  apply ignores_bind; [apply ignores_checkRecent|]. intros posted.
  apply ignores_bind; [apply ignores_calculateStreak|]. intros historical.
  apply ignores_bind; [apply ignores_now|]. intros date.
  apply ignores_bind.
  { apply ignores_modify. intros s s' H.
    destruct (hideRecord_fields _ _ H) as (Hc & Hr & Hd & Ht & Hn & Hdom & Htr).
    apply hideRecord_intro; cbn; congruence. }
  intros _.
  apply ignores_bind; [apply ignores_removeExisting|]. intros _.
  apply ignores_createStreakDisplay.
Qed.

(** The Today Checker, evaluated. *)
Lemma checkRecentPostsForToday_run env handle s :
  let req := feedRequest handle 5 None in
  let out := net env (length (trace s)) req in
  let s' := log (Fetch req out) s in
  Current.checkRecentPostsForToday env handle s
  = Ret (match out with
         | Body data =>
             match data_feed data with
             | Some posts => somePostOn (getUTCDate (clock env (length (trace s')))) posts
             | None => false
             end
         | Rejected => false
         end) s'.
Proof.
  intros req out s'.
  unfold Current.checkRecentPostsForToday, try_catch, mbind, M_bind, bind, fetchJson, now.
  cbv zeta. fold req out s'.
  destruct out as [|data]; [done|]. by destruct (data_feed data).
Qed.

(** Sequencing after a step that returned. *)
Lemma bind_returns {A B} (m : M A) (k : A → M B) s a s1 :
  m s = Ret a s1 → bind m k s = k a s1.
Proof. unfold bind. by intros ->. Qed.

Lemma try_catch_returns {A} (m : M A) (h : Error → M A) s a s1 :
  m s = Ret a s1 → try_catch m h s = Ret a s1.
Proof. unfold try_catch. by intros ->. Qed.

(** The update sequence of [content.js] on a page without persisted record. *)
Lemma legacy_updateFunc_without_record env fuel s handle :
  helpLink (dom s) = true →
  profileLink (dom s) = Some handle →
  localStorage s = None →
  ∀ streak s2,
    Legacy.calculateStreak env fuel handle
      (with_dom (mkDom true (Some handle) None true None) s) = Ret streak s2 →
    Legacy.updateFunc env fuel s
    = Ret tt
        (with_dom
           (mkDom (helpLink (dom s2)) (profileLink (dom s2))
                  (Some (mkStreakDisplay (0 <? streak) (StreakText streak) RefreshIcon))
                  false None)
           (with_localStorage
              (Some (mkStreakRecord
                       (if 0 <? streak
                        then Some (Legacy.parseLocalDate env
                                     (getUTCDate (clock env (length (trace s)))))
                        else None)
                       streak))
              s2)).
Proof.
  intros Hhelp Hprofile Hrecord streak s2 Hcalc.
  set (s0 := with_dom (mkDom true (Some handle) None true None) s) in *.
  unfold Legacy.updateFunc, mbind, M_bind.
  apply try_catch_returns.
  rewrite (bind_returns _ _ s true s) by (unfold gets; by rewrite Hhelp).
  cbn [negb].
  rewrite (bind_returns _ _ s handle s) by (unfold getProfile; by rewrite Hprofile).
  rewrite (bind_returns _ _ s tt
             (with_dom (mkDom true (Some handle) None false None) s))
    by (unfold removeExistingStreakContainers, modify; by rewrite Hhelp, Hprofile).
  rewrite (bind_returns _ _ _ tt s0) by done.
  rewrite (bind_returns _ _ s0 (clock env (length (trace s))) s0) by done.
  rewrite (bind_returns _ _ s0 None s0) by (unfold gets; cbn; by rewrite Hrecord).
  cbn [default streakDate streakNumber from_option].
  rewrite (bind_returns _ _ s0 (streak, 0 <? streak) s2).
  - cbn [fst snd]. by destruct (0 <? streak).
  - by rewrite (bind_returns _ _ _ _ _ Hcalc).
Qed.

(** Claim C2. (amended) The update sequence of the variant with the Today
    Checker recomputes both values on every run and only writes the persisted
    record. Two runs from states that differ in the record alone end in the
    same result, apart from the record itself. On a page with help link and
    profile link the run calls the Today Checker, which always answers, then
    the streak calculator on the state the checker left; when the calculator
    returns, the run persists and displays the historical streak plus one if
    the checker said true. The update sequence of [content.js] consults the
    persisted record; when there is none it persists and displays what its
    [calculateStreak] returns. *)
Theorem updateFunc_recomputes env fuel s handle :
  helpLink (dom s) = true →
  profileLink (dom s) = Some handle →
  (∀ record record',
     onState hideRecord (Current.updateFunc env fuel (with_localStorage record s))
     = onState hideRecord (Current.updateFunc env fuel (with_localStorage record' s)))
  ∧ (∃ posted s1,
      Current.checkRecentPostsForToday env handle
        (if isRefreshing s then s
         else with_dom (mkDom true (Some handle) None true None) s)
      = Ret posted s1
      ∧ ∀ historical s2,
          Current.calculateStreak env fuel handle s1 = Ret historical s2 →
          let streak := if posted then historical + 1 else historical in
          Current.updateFunc env fuel s
          = Ret tt
              (with_dom
                 (mkDom (helpLink (dom s2)) (profileLink (dom s2))
                        (Some (mkStreakDisplay posted (StreakText streak) RefreshIcon))
                        false None)
                 (with_localStorage
                    (Some (mkStreakRecord (Some (clock env (length (trace s2)))) streak))
                    s2)))
  ∧ (localStorage s = None →
     ∀ streak s2,
       Legacy.calculateStreak env fuel handle
         (with_dom (mkDom true (Some handle) None true None) s) = Ret streak s2 →
       localStorage <$> final (Legacy.updateFunc env fuel s)
       = Some (Some (mkStreakRecord
                       (if 0 <? streak
                        then Some (Legacy.parseLocalDate env
                                     (getUTCDate (clock env (length (trace s)))))
                        else None)
                       streak))
       ∧ fst <$> shown (Legacy.updateFunc env fuel s)
         = Some (Some (mkStreakDisplay (0 <? streak) (StreakText streak) RefreshIcon))).
Proof.
  intros Hhelp Hprofile. split; [|split].
  { intros record record'. by apply ignores_updateFunc. }
  2:{ intros Hrecord streak s2 Hcalc.
      by rewrite (legacy_updateFunc_without_record env fuel s handle Hhelp Hprofile
                    Hrecord streak s2 Hcalc). }
  set (s0 := if isRefreshing s then s
             else with_dom (mkDom true (Some handle) None true None) s).
  pose proof (checkRecentPostsForToday_run env handle s0) as Hcheck. cbv zeta in Hcheck.
  eexists _, _. split; [exact Hcheck|].
  intros historical s2 Hcalc streak.
  assert ((if negb (isRefreshing s)
           then bind removeExistingStreakContainers (λ _, appendLoadingIndicator)
           else mret tt) s = Ret tt s0) as Hload.
  { unfold s0. destruct (isRefreshing s); cbn; [done|]. by rewrite Hhelp, Hprofile. }
  unfold Current.updateFunc, mbind, M_bind.
  apply try_catch_returns.
  rewrite (bind_returns _ _ s true s) by (unfold gets; by rewrite Hhelp).
  cbn [negb].
  rewrite (bind_returns _ _ s handle s) by (unfold getProfile; by rewrite Hprofile).
  rewrite (bind_returns _ _ s (isRefreshing s) s) by done.
  rewrite (bind_returns _ _ _ _ _ Hload).
  rewrite (bind_returns _ _ _ _ _ Hcheck).
  rewrite (bind_returns _ _ _ _ _ Hcalc).
  done.
Qed.

Lemma updateFunc_recomputes_witness :
  ∃ s', Current.updateFunc Scenario.envA 5 Scenario.ready = Ret tt s'
        ∧ localStorage s' = Some (mkStreakRecord (Some (Scenario.noon 100)) 4)
        ∧ mainContainer (dom s') = Some (mkStreakDisplay true (StreakText 4) RefreshIcon).
Proof.
  destruct (updateFunc_recomputes Scenario.envA 5 Scenario.ready "alice" eq_refl eq_refl)
    as (_ & (posted & s1 & Hcheck & Hrun) & _).
  vm_compute in Hcheck. injection Hcheck as <- <-.
  eexists. split; [apply Hrun; vm_compute; reflexivity|]. split; reflexivity.
Defined.

(** The update sequence of [content.js] reads the persisted record: on day
    101, with the record of 3 persisted on day 100, it displays 3, not posted
    today, and issues no request, while the same page without record displays
    the 4 it computes from the feed. *)
Lemma legacy_updateFunc_trusts_record :
  shown (Legacy.updateFunc Scenario.envNextDay 5 Scenario.legacyNextDay)
  = Some (Some (mkStreakDisplay false (StreakText 3) RefreshIcon), [])
  ∧ fst <$> shown (Legacy.updateFunc Scenario.envNextDay 5 Scenario.ready)
    = Some (Some (mkStreakDisplay true (StreakText 4) RefreshIcon)).
Proof. split; vm_compute; reflexivity. Qed.

(** ** The single-flight flag *)

(** A completed run leaves [isRefreshing] as it found it, step by step. *)
Lemma preserves_ret {A B} (f : State → B) (a : A) : preserves f (ret a).
Proof. by intros s s' [= <-]. Qed.

Lemma preserves_throw {A B} (f : State → B) e : preserves f (@throw A e).
Proof. by intros s s' [= <-]. Qed.

Lemma preserves_bind {A B C} (f : State → C) (m : M A) (k : A → M B) :
  preserves f m → (∀ a, preserves f (k a)) → preserves f (bind m k).
Proof.
  intros Hm Hk s s' Hfinal. unfold bind in Hfinal.
  destruct (m s) as [a s1|e s1|] eqn:Hrun; [| |done].
  - rewrite (Hk a s1 s' Hfinal). apply Hm. by rewrite Hrun.
  - apply Hm. by rewrite Hrun.
Qed.

Lemma preserves_try_catch {A C} (f : State → C) (m : M A) (h : Error → M A) :
  preserves f m → (∀ e, preserves f (h e)) → preserves f (try_catch m h).
Proof.
  intros Hm Hh s s' Hfinal. unfold try_catch in Hfinal.
  destruct (m s) as [a s1|e s1|] eqn:Hrun; [| |done].
  - apply Hm. by rewrite Hrun.
  - rewrite (Hh e s1 s' Hfinal). apply Hm. by rewrite Hrun.
Qed.

Lemma preserves_modify {C} (f : State → C) (g : State → State) :
  (∀ s, f (g s) = f s) → preserves f (modify g).
Proof. intros Hg s s' [= <-]. apply Hg. Qed.

Lemma preserves_gets {A C} (f : State → C) (g : State → A) : preserves f (gets g).
Proof. by intros s s' [= <-]. Qed.

Lemma flag_now env : preserves isRefreshing (now env).
Proof. by intros s s' [= <-]. Qed.

Lemma flag_fetchJson env req : preserves isRefreshing (fetchJson env req).
Proof.
  intros s s' Hfinal. unfold fetchJson in Hfinal. cbv zeta in Hfinal.
  destruct (net env _ _); by injection Hfinal as <-.
Qed.

Lemma flag_getPostsForDay env fuel handle date retries :
  preserves isRefreshing (getPostsForDay env fuel handle date retries).
Proof.
  intros s s' Hfinal.
  destruct (cache s !! (handle, getUTCDate date)) as [cached|] eqn:Hcache.
  - rewrite (getPostsForDay_hit _ _ _ _ _ _ _ Hcache) in Hfinal. by injection Hfinal as <-.
  - by destruct (lookup_run _ _ _ _ _ _ _ s' Hcache eq_refl Hfinal) as (t & -> & _).
Qed.

Lemma flag_showError message : preserves isRefreshing (showError message).
Proof. by apply preserves_modify. Qed.

Lemma flag_countBack env pfuel handle fuel : ∀ currentDate streak,
  preserves isRefreshing (countBack env pfuel fuel handle currentDate streak).
Proof.
  induction fuel as [|fuel IH]; intros currentDate streak; cbn [countBack]; [done|].
  apply preserves_bind.
  - apply preserves_try_catch; [apply flag_getPostsForDay|]. intros e.
    apply preserves_bind; [apply flag_showError|]. intros _. apply preserves_throw.
  - intros hasPosted. destruct hasPosted; cbn [negb]; [apply IH|apply preserves_ret].
Qed.

Lemma flag_updateFunc env fuel : preserves isRefreshing (Current.updateFunc env fuel).
Proof.
  apply preserves_try_catch; [|intros _; apply flag_showError].
  apply preserves_bind; [apply preserves_gets|].
  intros help. destruct help; cbn [negb]; [|apply preserves_throw].
  apply preserves_bind.
  { intros s s' Hfinal. unfold getProfile in Hfinal.
    destruct (profileLink (dom s)); by injection Hfinal as <-. }
  intros handle.
  apply preserves_bind; [apply preserves_gets|]. intros refreshing.
  apply preserves_bind.
  { destruct refreshing; cbn [negb]; [apply preserves_ret|].
    apply preserves_bind; [by apply preserves_modify|]. intros _.
    by apply preserves_modify. }
  intros _.
  apply preserves_bind.
  { apply preserves_try_catch; [|intros _; apply preserves_ret].
    apply preserves_bind; [apply flag_fetchJson|]. intros data.
    apply preserves_bind; [apply flag_now|]. intros date.
    destruct (data_feed data); [apply preserves_ret|apply preserves_throw]. }
  intros posted.
  apply preserves_bind.
  { apply preserves_bind; [apply flag_now|]. intros today.
    apply preserves_bind; [apply flag_getPostsForDay|]. intros yes.
    destruct yes; cbn [negb]; [apply flag_countBack|apply preserves_ret]. }
  intros historical.
  apply preserves_bind; [apply flag_now|]. intros date.
  apply preserves_bind; [by apply preserves_modify|]. intros _.
  apply preserves_bind; [by apply preserves_modify|]. intros _.
  by apply preserves_modify.
Qed.

(** The update sequence catches every error itself. *)
Lemma updateFunc_catches env fuel s : thrown (Current.updateFunc env fuel s) = false.
Proof.
  unfold Current.updateFunc, try_catch.
  match goal with |- context [match ?m s with _ => _ end] => destruct (m s) end; done.
Qed.

(** While the flag is set, [updateOrInsertStreakInfo] runs the update sequence
    at once and touches no timer. *)
Lemma updateOrInsertStreakInfo_refreshing env fuel s :
  isRefreshing s = true →
  Current.updateOrInsertStreakInfo env fuel s = Current.updateFunc env fuel s.
Proof.
  intros Hflag. unfold Current.updateOrInsertStreakInfo, mbind, M_bind, bind, gets.
  rewrite Hflag. by destruct (debounceTimeout s).
Qed.

(** [refreshStreak] of [content.js], evaluated. *)
Lemma legacy_refreshStreak_run s :
  Legacy.refreshStreak s
  = Ret tt (mkState (cache s) None (isRefreshing s) (Some (nextTimer s))
              (match debounceTimeout s with
               | Some id => filter (λ t, t ≠ id) (timers s)
               | None => timers s
               end ++ [nextTimer s])
              (S (nextTimer s)) (dom s) (trace s)).
Proof.
  unfold Legacy.refreshStreak, Legacy.updateOrInsertStreakInfo, mbind, M_bind, bind,
    modify, gets, setTimeout, clearTimeout.
  cbn. by destruct (debounceTimeout s).
Qed.

(** Claim C3. (amended) In the variant with the [isRefreshing] flag, a refresh
    request that arrives while the flag is set returns at once and leaves the
    whole state as it is: no timer is queued, no event is logged, cache,
    persisted record and page are untouched. The update sequence a refresh
    runs while the flag is set leaves it set, so the flag holds until the
    [finally] of the refresh in progress. [refreshStreak] of [content.js] has
    no guard: in every state it removes the persisted record and sets a timer
    for a run. *)
Theorem refreshStreak_single_flight env fuel s :
  isRefreshing s = true →
  Current.refreshStreak env fuel s = Ret tt s
  ∧ (∀ s', final (Current.updateOrInsertStreakInfo env fuel s) = Some s' →
           isRefreshing s' = true)
  ∧ (∀ s0, ∃ s', Legacy.refreshStreak s0 = Ret tt s'
                 ∧ localStorage s' = None
                 ∧ debounceTimeout s' = Some (nextTimer s0)
                 ∧ nextTimer s0 ∈ timers s').
Proof.
  intros Hflag. split; [|split].
  3:{ intros s0. rewrite legacy_refreshStreak_run. eexists. split; [done|].
      cbn. split; [done|]. split; [done|]. apply elem_of_app. right.
      apply list_elem_of_here. }
  - unfold Current.refreshStreak, mbind, M_bind, bind, gets. by rewrite Hflag.
  - intros s' Hfinal.
    rewrite updateOrInsertStreakInfo_refreshing in Hfinal by done.
    by rewrite (flag_updateFunc env fuel s s' Hfinal).
Qed.

Lemma refreshStreak_single_flight_witness :
  Current.refreshStreak Scenario.dead 5 (with_isRefreshing true Scenario.currentDisplayed)
  = Ret tt (with_isRefreshing true Scenario.currentDisplayed).
Proof.
  apply (refreshStreak_single_flight Scenario.dead 5
           (with_isRefreshing true Scenario.currentDisplayed) eq_refl).
Defined.

(** [refreshStreak] of [content.js] has no guard: requested while the callback
    of timer 1 is running, it queues timer 2, and the callback of timer 2
    runs the update sequence again (on day 101 it fetches the feed for the
    new day). *)
Lemma legacy_refreshStreak_not_single_flight :
  timers Scenario.legacyRunning = []
  ∧ length (trace Scenario.legacyRunning) = 1%nat
  ∧ timers <$> final (Legacy.refreshStreak Scenario.legacyRunning) = Some [2%nat]
  ∧ (length ∘ snd) <$> shown (bind Legacy.refreshStreak
                                (λ _, Legacy.fireTimer Scenario.envNextDay 5 2)
                                Scenario.legacyRunning)
    = Some 2%nat.
Proof. repeat split; vm_compute; reflexivity. Qed.

(** Claim C7. (amended) In the variant with the [isRefreshing] flag, a refresh
    that is not dropped by the guard and finds help link and streak display
    runs the update sequence on a state whose cache is empty and whose
    persisted record is removed, after marking the display and a delay of
    500 ms, and clears the flag when the sequence is over. [refreshStreak] of
    [content.js] removes the persisted record and sets a timer whose callback
    is the update sequence. *)
Theorem refreshStreak_clears_before_recomputing env fuel s w :
  isRefreshing s = false →
  helpLink (dom s) = true →
  mainContainer (dom s) = Some w →
  ∃ s0,
    cache s0 = ∅
    ∧ localStorage s0 = None
    ∧ isRefreshing s0 = true
    ∧ trace s0 = trace s ++ [Sleep 500]
    ∧ mainContainer (dom s0) = Some (mkStreakDisplay (postedToday w) RefreshingText HourglassIcon)
    ∧ Current.refreshStreak env fuel s
      = onState (with_isRefreshing false) (Current.updateFunc env fuel s0)
    ∧ ∃ s', Legacy.refreshStreak s = Ret tt s'
            ∧ localStorage s' = None
            ∧ nextTimer s ∈ timers s'
            ∧ Legacy.fireTimer env fuel (nextTimer s) s'
              = bind (clearTimeout (nextTimer s)) (λ _, Legacy.updateFunc env fuel) s'.
Proof.
  intros Hflag Hhelp Hmain.
  assert (∃ s', Legacy.refreshStreak s = Ret tt s'
            ∧ localStorage s' = None
            ∧ nextTimer s ∈ timers s'
            ∧ Legacy.fireTimer env fuel (nextTimer s) s'
              = bind (clearTimeout (nextTimer s)) (λ _, Legacy.updateFunc env fuel) s')
    as Hlegacy.
  { rewrite legacy_refreshStreak_run. eexists. split; [done|].
    assert (nextTimer s ∈ match debounceTimeout s with
                          | Some id => filter (λ t, t ≠ id) (timers s)
                          | None => timers s
                          end ++ [nextTimer s]) as Hin.
    { apply elem_of_app. right. apply list_elem_of_here. }
    cbn. split; [done|]. split; [done|].
    unfold Legacy.fireTimer, mbind, M_bind, bind at 1, gets. cbn [timers].
    by rewrite bool_decide_eq_true_2. }
  set (s0 := log (Sleep 500)
               (with_localStorage None
                  (with_cache ∅
                     (with_dom
                        (mkDom (helpLink (dom s)) (profileLink (dom s))
                           (Some (mkStreakDisplay (postedToday w) RefreshingText HourglassIcon))
                           (loadingIndicator (dom s)) (streakError (dom s)))
                        (with_isRefreshing true s))))).
  exists s0. repeat (split; [done|]). split; [|exact Hlegacy].
  unfold Current.refreshStreak, mbind, M_bind.
  rewrite (bind_returns _ _ s false s) by (unfold gets; by rewrite Hflag).
  unfold try_finally, try_catch.
  rewrite (bind_returns _ _ s tt (with_isRefreshing true s)) by done.
  rewrite (bind_returns _ _ _ true (with_isRefreshing true s))
    by (unfold gets; cbn; by rewrite Hhelp).
  cbn [negb].
  rewrite (bind_returns _ _ _ (Some w) (with_isRefreshing true s))
    by (unfold gets; cbn; by rewrite Hmain).
  unfold Current.markRefreshing, sleep, modify, bind. fold s0.
  rewrite updateOrInsertStreakInfo_refreshing by done.
  lazymatch goal with
  | |- match match Current.updateFunc env fuel ?x with _ => _ end with _ => _ end = _ =>
      change x with s0
  end.
  pose proof (updateFunc_catches env fuel s0) as Hcatch.
  by destruct (Current.updateFunc env fuel s0).
Qed.

Lemma refreshStreak_clears_before_recomputing_witness :
  ∃ s0, cache s0 = ∅ ∧ localStorage s0 = None
        ∧ Current.refreshStreak Scenario.envAfter 5 Scenario.currentDisplayed
          = onState (with_isRefreshing false)
              (Current.updateFunc Scenario.envAfter 5 s0).
Proof.
  destruct (refreshStreak_clears_before_recomputing Scenario.envAfter 5
              Scenario.currentDisplayed
              (mkStreakDisplay false (StreakText 2) RefreshIcon)
              eq_refl eq_refl eq_refl)
    as (s0 & Hcache & Hrecord & _ & _ & _ & Hrun & _).
  exists s0. by repeat split.
Defined.

(** [refreshStreak] of [content.js] leaves the cache as it is. The streak was
    displayed before the post of day 100, so the cache says that day 100 has
    no post; after the post, the refresh and the run it schedules display 0
    again and log no request, while a new session on the same feed displays
    3. *)
Lemma legacy_refreshStreak_keeps_cache :
  cache <$> final (Legacy.refreshStreak Scenario.legacyDisplayed)
  = Some {[ ("alice", 100) := false ]}
  ∧ shown (bind Legacy.refreshStreak (λ _, Legacy.fireTimer Scenario.envAfter 5 1)
             Scenario.legacyDisplayed)
    = Some (Some (mkStreakDisplay false (StreakText 0) RefreshIcon),
            trace Scenario.legacyDisplayed)
  ∧ fst <$> shown (Legacy.updateFunc Scenario.envAfter 5 Scenario.ready)
    = Some (Some (mkStreakDisplay true (StreakText 3) RefreshIcon)).
Proof. repeat split; vm_compute; reflexivity. Qed.

(** ** Frames *)

Section Respects.
Context (R : State → State → Prop).
Hypothesis R_refl : ∀ s, R s s.
Hypothesis R_trans : ∀ s1 s2 s3, R s1 s2 → R s2 s3 → R s1 s3.

Lemma respects_ret {A} (a : A) : respects R (ret a).
Proof. intros s s' [= <-]. apply R_refl. Qed.

Lemma respects_throw {A} e : respects R (@throw A e).
Proof. intros s s' [= <-]. apply R_refl. Qed.

Lemma respects_gets {A} (f : State → A) : respects R (gets f).
Proof. intros s s' [= <-]. apply R_refl. Qed.

Lemma respects_modify (f : State → State) : (∀ s, R s (f s)) → respects R (modify f).
Proof. intros Hf s s' [= <-]. apply Hf. Qed.

Lemma respects_bind {A B} (m : M A) (k : A → M B) :
  respects R m → (∀ a, respects R (k a)) → respects R (bind m k).
Proof.
  intros Hm Hk s s' Hfinal. unfold bind in Hfinal.
  destruct (m s) as [a s1|e s1|] eqn:Hrun; [| |done].
  - apply (R_trans s s1 s'); [apply Hm; by rewrite Hrun|by apply (Hk a)].
  - apply Hm. by rewrite Hrun.
Qed.

Lemma respects_try_catch {A} (m : M A) (h : Error → M A) :
  respects R m → (∀ e, respects R (h e)) → respects R (try_catch m h).
Proof.
  intros Hm Hh s s' Hfinal. unfold try_catch in Hfinal.
  destruct (m s) as [a s1|e s1|] eqn:Hrun; [| |done].
  - apply Hm. by rewrite Hrun.
  - apply (R_trans s s1 s'); [apply Hm; by rewrite Hrun|by apply (Hh e)].
Qed.
End Respects.

Lemma onlyLooksUp_refl s : onlyLooksUp s s.
Proof. by repeat split. Qed.

Lemma onlyLooksUp_trans s1 s2 s3 :
  onlyLooksUp s1 s2 → onlyLooksUp s2 s3 → onlyLooksUp s1 s3.
Proof.
  intros (H1 & H2 & H3 & H4 & H5 & H6 & H7 & H8 & H9)
         (K1 & K2 & K3 & K4 & K5 & K6 & K7 & K8 & K9).
  repeat split; try congruence; by etrans.
Qed.

Lemma sameSchedule_refl s : sameSchedule s s.
Proof. by repeat split. Qed.

Lemma sameSchedule_trans s1 s2 s3 :
  sameSchedule s1 s2 → sameSchedule s2 s3 → sameSchedule s1 s3.
Proof.
  intros (H2 & H3 & H4 & H5 & H6 & H7 & H9) (K2 & K3 & K4 & K5 & K6 & K7 & K9).
  repeat split; try congruence; by etrans.
Qed.

Lemma onlyLooksUp_sameSchedule s s' : onlyLooksUp s s' → sameSchedule s s'.
Proof. intros (H1 & H2 & H3 & H4 & H5 & H6 & H7 & H8 & H9). by repeat split. Qed.

(** A state that differs by entries added to the cache, events added to the
    trace and the boxes of the page. *)
Lemma onlyLooksUp_intro s c d t :
  cache s ⊆ c →
  helpLink d = helpLink (dom s) →
  profileLink d = profileLink (dom s) →
  onlyLooksUp s (mkState c (localStorage s) (isRefreshing s) (debounceTimeout s)
                   (timers s) (nextTimer s) d (trace s ++ t)).
Proof. intros Hc Hh Hp. repeat split; try done. by apply prefix_app_r. Qed.

Lemma looksUp_log e s : onlyLooksUp s (log e s).
Proof. by apply (onlyLooksUp_intro s (cache s) (dom s) [e]). Qed.

Lemma looksUp_now env : respects onlyLooksUp (now env).
Proof. intros s s' [= <-]. apply onlyLooksUp_refl. Qed.

Lemma looksUp_fetchJson env req : respects onlyLooksUp (fetchJson env req).
Proof.
  intros s s' Hfinal. unfold fetchJson in Hfinal. cbv zeta in Hfinal.
  destruct (net env _ _); injection Hfinal as <-; apply looksUp_log.
Qed.

Lemma looksUp_getPostsForDay env fuel handle date retries :
  respects onlyLooksUp (getPostsForDay env fuel handle date retries).
Proof.
  intros s s' Hfinal.
  destruct (cache s !! (handle, getUTCDate date)) as [cached|] eqn:Hcache.
  - rewrite (getPostsForDay_hit _ _ _ _ _ _ _ Hcache) in Hfinal.
    injection Hfinal as <-. apply onlyLooksUp_refl.
  - destruct (lookup_run _ _ _ _ _ _ _ s' Hcache eq_refl Hfinal) as (t & -> & _).
    apply (onlyLooksUp_intro s _ (dom s) t); [|done..].
    destruct (value _); [by apply insert_subseteq|done].
Qed.

Lemma looksUp_showError message : respects onlyLooksUp (showError message).
Proof.
  apply respects_modify. intros s. by repeat split.
Qed.

Lemma looksUp_countBack env pfuel handle fuel : ∀ currentDate streak,
  respects onlyLooksUp (countBack env pfuel fuel handle currentDate streak).
Proof.
  induction fuel as [|fuel IH]; intros currentDate streak; cbn [countBack]; [done|].
  apply respects_bind; [apply onlyLooksUp_trans| |].
  - apply respects_try_catch;
      [apply onlyLooksUp_trans|apply looksUp_getPostsForDay|].
    intros e. apply respects_bind;
      [apply onlyLooksUp_trans|apply looksUp_showError|].
    intros _. apply respects_throw, onlyLooksUp_refl.
  - intros hasPosted. destruct hasPosted; cbn [negb];
      [apply IH|apply respects_ret, onlyLooksUp_refl].
Qed.

Lemma looksUp_currentCalculateStreak env fuel handle :
  respects onlyLooksUp (Current.calculateStreak env fuel handle).
Proof.
  apply respects_bind; [apply onlyLooksUp_trans|apply looksUp_now|]. intros today.
  apply respects_bind; [apply onlyLooksUp_trans|apply looksUp_getPostsForDay|].
  intros posted. destruct posted; cbn [negb];
    [apply looksUp_countBack|apply respects_ret, onlyLooksUp_refl].
Qed.

Lemma looksUp_legacyCalculateStreak env fuel handle :
  respects onlyLooksUp (Legacy.calculateStreak env fuel handle).
Proof.
  apply respects_bind; [apply onlyLooksUp_trans|apply looksUp_now|]. intros today.
  apply looksUp_countBack.
Qed.

(** ** The page on return *)

Lemma keepsPage_getPostsForDay env fuel handle date retries :
  keepsPage (getPostsForDay env fuel handle date retries).
Proof.
  intros s b s' Hrun.
  destruct (cache s !! (handle, getUTCDate date)) as [cached|] eqn:Hcache.
  - rewrite (getPostsForDay_hit _ _ _ _ _ _ _ Hcache) in Hrun. by injection Hrun as _ <-.
  - by destruct (lookup_run _ _ _ _ _ _ _ s' Hcache Hrun eq_refl) as (t & -> & _).
Qed.

Lemma keepsPage_countBack env pfuel handle fuel : ∀ currentDate streak,
  keepsPage (countBack env pfuel fuel handle currentDate streak).
Proof.
  induction fuel as [|fuel IH]; intros currentDate streak s n s' Hrun; [done|].
  cbn [countBack] in Hrun. unfold mbind, M_bind, bind, try_catch in Hrun.
  destruct (getPostsForDay env pfuel handle currentDate 3 s) as [b s1|e s1|] eqn:Hlook.
  - pose proof (keepsPage_getPostsForDay _ _ _ _ _ _ _ _ Hlook) as Hdom.
    destruct b; cbn [negb] in Hrun.
    + rewrite <- Hdom. by eapply IH.
    + by injection Hrun as _ <-.
  - unfold showError, modify, throw in Hrun. done.
  - done.
Qed.

(** ** More on single lookups *)

(** Extra X1. A completed [getPostsForDay] changes nothing but the cache and
    the trace. The trace only grows; in the cache no entry of another pair is
    added, changed or removed and no entry is ever overwritten; and when the
    pair was memoized the state is left exactly as it was. *)
Theorem getPostsForDay_touches_only_its_entry env fuel handle date retries s s' :
  final (getPostsForDay env fuel handle date retries s) = Some s' →
  s' = with_cache (cache s') (with_trace (trace s') s)
  ∧ trace s `prefix_of` trace s'
  ∧ cache s ⊆ cache s'
  ∧ (∀ key, key ≠ (handle, getUTCDate date) → cache s' !! key = cache s !! key)
  ∧ (∀ b, cache s !! (handle, getUTCDate date) = Some b → s' = s).
Proof.
  intros Hfinal.
  destruct (cache s !! (handle, getUTCDate date)) as [cached|] eqn:Hcache.
  - rewrite (getPostsForDay_hit _ _ _ _ _ _ _ Hcache) in Hfinal.
    injection Hfinal as <-. repeat split; try done. by destruct s.
  - destruct (lookup_run _ _ _ _ _ _ _ s' Hcache eq_refl Hfinal) as (t & -> & _).
    split; [done|]. split; [by apply prefix_app_r|].
    split; [|split]; [| |done]; cbn; destruct (value _); try done.
    + by apply insert_subseteq.
    + intros key Hkey. by rewrite lookup_insert_ne.
Qed.

Lemma getPostsForDay_touches_only_its_entry_witness :
  ∃ s', final (getPostsForDay Scenario.envA 5 "alice" (Scenario.noon 96) 3
                 Scenario.currentDisplayed) = Some s'
        ∧ length (trace s') = S (S (S (length (trace Scenario.currentDisplayed))))
        ∧ cache s' !! ("alice", 96) = Some false
        ∧ cache s' !! ("alice", 99) = cache Scenario.currentDisplayed !! ("alice", 99).
Proof.
  eexists. split; [vm_compute; reflexivity|].
  split; [vm_compute; reflexivity|]. split; [vm_compute; reflexivity|].
  destruct (getPostsForDay_touches_only_its_entry Scenario.envA 5 "alice"
              (Scenario.noon 96) 3 Scenario.currentDisplayed _
              ltac:(vm_compute; reflexivity)) as (_ & _ & _ & Hother & _).
  apply Hother. intros [= ?].
Defined.

Lemma followsCursors_app_sleep handle cursor t ms u :
  followsCursors handle cursor (t ++ Sleep ms :: u)
  = followsCursors handle cursor t && followsCursors handle None u.
Proof.
  revert cursor. induction t as [|[req out|ms'] t IH]; intros cursor; cbn.
  - done.
  - by rewrite IH, !andb_assoc.
  - apply IH.
Qed.

Lemma truthy_not_empty cursor : truthy cursor = true → cursor ≠ Some "".
Proof. by intros H ->. Qed.

Lemma paginate_cursors env handle day fuel : ∀ (cursor : option Cursor) s s',
  cursor ≠ Some "" →
  final (paginate env fuel handle day cursor s) = Some s' →
  ∃ t, s' = with_trace (trace s ++ t) s ∧ followsCursors handle cursor t = true.
Proof.
  induction fuel as [|fuel IH]; intros cursor s s' Hcursor Hfinal; [done|].
  rewrite paginate_S in Hfinal. cbv zeta in Hfinal.
  destruct (net env _ _) as [|data] eqn:Hnet.
  - injection Hfinal as <-. eexists [Fetch _ Rejected]. split; [done|].
    cbn [followsCursors]. by repeat case_bool_decide.
  - destruct (continues day data) eqn:Hcont.
    + destruct (IH (data_cursor data)
                  (log (Fetch (feedRequest handle 100 cursor) (Body data)) s) s')
        as (t & -> & Ht); [|done|].
      { apply truthy_not_empty. unfold continues in Hcont.
        by apply andb_prop in Hcont as [_ ?]. }
      exists (Fetch (feedRequest handle 100 cursor) (Body data) :: t). split.
      * unfold log. cbn. by rewrite <- app_assoc.
      * cbn [followsCursors]. rewrite Ht. by repeat case_bool_decide.
    + injection Hfinal as <-. eexists [Fetch _ (Body data)]. split; [done|].
      cbn [followsCursors]. by repeat case_bool_decide.
Qed.

(** Extra X2. In the trace of a completed lookup that asks the network, every
    request is for the handle of the lookup, 100 posts, without replies, and
    carries the cursor of the page answered just before it; the first request
    and each request after a failure carry none, and the empty string is
    never sent as a cursor. *)
Theorem getPostsForDay_follows_cursors env fuel handle date : ∀ retries s s',
  cache s !! (handle, getUTCDate date) = None →
  final (getPostsForDay env fuel handle date retries s) = Some s' →
  ∃ t, trace s' = trace s ++ t ∧ followsCursors handle None t = true.
Proof.
  induction retries as [|retries IH]; intros s s' Hmiss Hfinal;
    rewrite getPostsForDay_miss in Hfinal by done;
    destruct (paginate env fuel handle (getUTCDate date) None s) as [b s1|e s1|] eqn:Hpag;
    try done;
    pose proof (paginate_cursors env handle (getUTCDate date) fuel None s s1
                  ltac:(done)) as Hcur;
    destruct (Hcur (f_equal final Hpag)) as (t & -> & Ht); clear Hcur.
  - injection Hfinal as <-. by exists t.
  - injection Hfinal as <-. by exists t.
  - injection Hfinal as <-. by exists t.
  - destruct (IH (log (Sleep (backoff (S retries))) (with_trace (trace s ++ t) s))
                s' Hmiss Hfinal) as (u & -> & Hu).
    exists (t ++ Sleep (backoff (S retries)) :: u). split.
    + cbn. by rewrite <- !app_assoc.
    + rewrite followsCursors_app_sleep. apply andb_true_intro. by split.
Qed.

Lemma getPostsForDay_follows_cursors_witness :
  ∃ s' t, final (getPostsForDay Scenario.flaky 5 "alice" (Scenario.noon 99) 3
                   Scenario.ready) = Some s'
          ∧ trace s' = trace Scenario.ready ++ t
          ∧ followsCursors "alice" None t = true.
Proof.
  destruct (getPostsForDay_follows_cursors Scenario.flaky 5 "alice" (Scenario.noon 99) 3
              Scenario.ready _ eq_refl ltac:(vm_compute; reflexivity)) as (t & Ht & Hc).
  eexists _, t. split; [reflexivity|]. by split.
Defined.

(** A pagination that returns has been served a run of pages that continue
    and then one that does not, and returns what that last page says. *)
Lemma paginate_pages env handle day fuel : ∀ cursor s found s',
  paginate env fuel handle day cursor s = Ret found s' →
  ∃ pages last,
    s' = with_trace (trace s ++ pageFetches handle cursor (pages ++ [last])) s
    ∧ served env (length (trace s)) handle cursor (pages ++ [last])
    ∧ Forall (λ page, continues day page = true) pages
    ∧ continues day last = false
    ∧ found = matching day last.
Proof.
  induction fuel as [|fuel IH]; intros cursor s found s' Hrun; [done|].
  rewrite paginate_S in Hrun. cbv zeta in Hrun.
  destruct (net env _ _) as [|data] eqn:Hnet; [done|].
  destruct (continues day data) eqn:Hcont.
  - destruct (IH _ _ _ _ Hrun) as (pages & last & -> & Hserved & Hpages & Hlast & ->).
    exists (data :: pages), last. split; [|split; [|split; [|split]]]; try done.
    + unfold log. cbn. by rewrite <- app_assoc.
    + cbn. split; [done|].
      cbn in Hserved. rewrite length_app in Hserved. cbn in Hserved.
      by rewrite Nat.add_1_r in Hserved.
    + by constructor.
  - injection Hrun as <- <-. exists [], data. by repeat split.
Qed.

Lemma continues_no_match day page : continues day page = true → matching day page = false.
Proof.
  unfold continues. intros H. apply andb_prop in H as [H _].
  apply andb_prop in H as [_ H]. by apply negb_true_iff in H.
Qed.

(** Extra X3. An answer that [getPostsForDay] gets from the network is
    witnessed by the pages of its last attempt. The trace ends with the
    fetches of a run of pages that each were non-empty, without post of the
    day and with cursor, and of one last page that decided; the answer is
    true exactly when that last page holds a post of the day, and when the
    answer is false no page of the attempt holds one. *)
Theorem getPostsForDay_answer_is_witnessed env fuel handle date : ∀ retries s found s',
  cache s !! (handle, getUTCDate date) = None →
  getPostsForDay env fuel handle date retries s = Ret found s' →
  ∃ before pages last,
    trace s' = trace s ++ before ++ pageFetches handle None (pages ++ [last])
    ∧ Forall (λ page, continues (getUTCDate date) page = true) pages
    ∧ continues (getUTCDate date) last = false
    ∧ found = matching (getUTCDate date) last
    ∧ (found = false →
       Forall (λ page, matching (getUTCDate date) page = false) (pages ++ [last])).
Proof.
  induction retries as [|retries IH]; intros s found s' Hmiss Hrun;
    rewrite getPostsForDay_miss in Hrun by done;
    destruct (paginate env fuel handle (getUTCDate date) None s) as [b s1|e s1|] eqn:Hpag;
    try done.
  1,2: injection Hrun as <- <-;
       destruct (paginate_pages _ _ _ _ _ _ _ _ Hpag)
         as (pages & last & -> & _ & Hpages & Hlast & ->);
       exists [], pages, last; repeat split; try done;
       intros Hfalse; apply Forall_app; split;
       [eapply Forall_impl; [exact Hpages|]; intros page; apply continues_no_match
       |by constructor].
  destruct (paginate_attempt _ _ _ _ _ _ _ s1 Hpag eq_refl) as (t & -> & _).
  destruct (IH (log (Sleep (backoff (S retries))) (with_trace (trace s ++ t) s))
              found s' Hmiss Hrun)
    as (before & pages & last & -> & Hpages & Hlast & -> & Hnone).
  exists (t ++ Sleep (backoff (S retries)) :: before), pages, last.
  repeat split; try done. cbn. by rewrite <- !app_assoc.
Qed.

Lemma getPostsForDay_answer_is_witnessed_witness :
  ∃ s' before pages last,
    getPostsForDay Scenario.envA 5 "alice" (Scenario.noon 96) 3 Scenario.ready
    = Ret false s'
    ∧ trace s' = trace Scenario.ready ++ before
                 ++ pageFetches "alice" None (pages ++ [last])
    ∧ Forall (λ page, matching 96 page = false) (pages ++ [last]).
Proof.
  destruct (getPostsForDay_answer_is_witnessed Scenario.envA 5 "alice" (Scenario.noon 96)
              3 Scenario.ready false _ eq_refl ltac:(vm_compute; reflexivity))
    as (before & pages & last & Htrace & _ & _ & _ & Hnone).
  eexists _, before, pages, last. split; [reflexivity|]. split; [exact Htrace|].
  by apply Hnone.
Defined.

Lemma delaysOf_app t u : delaysOf (t ++ u) = delaysOf t ++ delaysOf u.
Proof. unfold delaysOf. apply omap_app. Qed.

Lemma attemptTrace_delays failed t : attemptTrace failed t = true → delaysOf t = [].
Proof.
  induction t as [|[req [|data]|ms] t IH]; cbn; try done.
  by destruct t.
Qed.

(** The delays of a completed lookup are the first delays of its schedule,
    one for each failure that was retried. *)
Lemma lookup_delays env fuel handle date : ∀ retries s s',
  cache s !! (handle, getUTCDate date) = None →
  final (getPostsForDay env fuel handle date retries s) = Some s' →
  ∃ t, trace s' = trace s ++ t
       ∧ delaysOf t
         = take (failures t
                 - if thrown (getPostsForDay env fuel handle date retries s)
                   then 1 else 0)%nat
             (backoffDelays retries).
Proof.
  induction retries as [|retries IH]; intros s s' Hmiss Hfinal;
    rewrite getPostsForDay_miss in Hfinal |- * by done;
    destruct (paginate env fuel handle (getUTCDate date) None s) as [b s1|e s1|] eqn:Hpag;
    try done;
    destruct (paginate_attempt _ _ _ _ _ _ _ s1 Hpag eq_refl) as (t & -> & _ & Hatt);
    cbn [thrown] in Hatt.
  - injection Hfinal as <-. exists t. split; [done|].
    by rewrite (attemptTrace_delays _ _ Hatt), (attemptTrace_failures _ _ Hatt).
  - injection Hfinal as <-. exists t. split; [done|].
    by rewrite (attemptTrace_delays _ _ Hatt), (attemptTrace_failures _ _ Hatt).
  - injection Hfinal as <-. exists t. split; [done|].
    by rewrite (attemptTrace_delays _ _ Hatt), (attemptTrace_failures _ _ Hatt).
  - destruct (IH (log (Sleep (backoff (S retries))) (with_trace (trace s ++ t) s))
                s' Hmiss Hfinal) as (u & Htrace & Hu).
    exists (t ++ Sleep (backoff (S retries)) :: u). split.
    + rewrite Htrace. cbn. by rewrite <- !app_assoc.
    + rewrite delaysOf_app, failures_app, (attemptTrace_delays _ _ Hatt),
        (attemptTrace_failures _ _ Hatt).
      change (delaysOf (Sleep (backoff (S retries)) :: u))
        with (backoff (S retries) :: delaysOf u).
      change (failures (Sleep (backoff (S retries)) :: u)) with (failures u).
      rewrite Hu. cbn [backoffDelays app].
      destruct (lookup_run env fuel handle date retries
                  (log (Sleep (backoff (S retries))) (with_trace (trace s ++ t) s))
                  _ s' Hmiss eq_refl Hfinal)
        as (u' & Heq & _ & _ & _ & _ & Hiff).
      assert (u' = u) as ->.
      { apply (f_equal trace) in Heq. rewrite Htrace in Heq.
        by apply app_inv_head in Heq. }
      destruct (thrown _) eqn:Hthrown.
      * assert (failures u = S retries) as -> by by apply Hiff.
        replace (1 + S retries - 1)%nat with (S (S retries - 1)) by lia. done.
      * replace (1 + failures u - 0)%nat with (S (failures u - 0)) by lia. done.
Qed.

(** Extra X4. With the default three retries, a lookup that lets an error
    through has failed four times and slept exactly 1000, 2000 and 4000 ms,
    seven seconds in all; a lookup that returns after [k] failures has slept
    the first [k] of these delays and no more. *)
Theorem getPostsForDay_total_backoff env fuel handle date s s' :
  cache s !! (handle, getUTCDate date) = None →
  final (getPostsForDay env fuel handle date 3 s) = Some s' →
  ∃ t, trace s' = trace s ++ t
       ∧ (thrown (getPostsForDay env fuel handle date 3 s) = true →
          delaysOf t = [1000; 2000; 4000] ∧ foldr Z.add 0 (delaysOf t) = 7000)
       ∧ (thrown (getPostsForDay env fuel handle date 3 s) = false →
          delaysOf t = take (failures t) [1000; 2000; 4000]
          ∧ foldr Z.add 0 (delaysOf t) ≤ 7000).
Proof.
  intros Hmiss Hfinal.
  destruct (lookup_delays _ _ _ _ _ _ _ Hmiss Hfinal) as (t & Htrace & Hdelays).
  destruct (lookup_run _ _ _ _ _ _ _ s' Hmiss eq_refl Hfinal)
    as (t' & Heq & _ & _ & _ & Hle & Hiff).
  assert (t' = t) as ->.
  { apply (f_equal trace) in Heq. cbn in Heq. rewrite Htrace in Heq.
    by apply app_inv_head in Heq. }
  exists t. split; [done|]. split; intros Hthrown; rewrite Hthrown in Hdelays.
  - apply Hiff in Hthrown. rewrite Hthrown in Hdelays. rewrite Hdelays. done.
  - rewrite Nat.sub_0_r in Hdelays. split; [done|]. rewrite Hdelays.
    change (backoffDelays 3) with [1000; 2000; 4000].
    by destruct (failures t) as [|[|[|[|k]]]]; cbn.
Qed.

Lemma getPostsForDay_total_backoff_witness :
  ∃ s' t, final (getPostsForDay Scenario.flaky 5 "alice" (Scenario.noon 99) 3
                   Scenario.ready) = Some s'
          ∧ trace s' = trace Scenario.ready ++ t
          ∧ foldr Z.add 0 (delaysOf t) = 7000.
Proof.
  destruct (getPostsForDay_total_backoff Scenario.flaky 5 "alice" (Scenario.noon 99)
              Scenario.ready _ eq_refl ltac:(vm_compute; reflexivity))
    as (t & Htrace & Hthrown & _).
  eexists _, t. split; [reflexivity|]. split; [exact Htrace|].
  apply Hthrown. vm_compute; reflexivity.
Defined.

(** ** More on the streak calculator *)

Lemma getPostsForDay_memoizes env fuel handle date retries s b s' :
  getPostsForDay env fuel handle date retries s = Ret b s' →
  cache s' !! (handle, getUTCDate date) = Some b.
Proof.
  intros Hrun.
  destruct (cache s !! (handle, getUTCDate date)) as [cached|] eqn:Hcache.
  - rewrite (getPostsForDay_hit _ _ _ _ _ _ _ Hcache) in Hrun. congruence.
  - destruct (lookup_run _ _ _ _ _ _ _ s' Hcache Hrun eq_refl) as (t & -> & _).
    cbn. apply lookup_insert_eq.
Qed.

(** The walk never returns less than the count it started with, and returns
    exactly that count when, and only when, the first day it looks at has no
    post. *)
Lemma countBack_at_least env pfuel handle fuel : ∀ currentDate streak s n s',
  countBack env pfuel fuel handle currentDate streak s = Ret n s' →
  streak ≤ n
  ∧ (n = streak ↔ value (getPostsForDay env pfuel handle currentDate 3 s) = Some false).
Proof.
  induction fuel as [|fuel IH]; intros currentDate streak s n s' Hrun; [done|].
  cbn [countBack] in Hrun. unfold mbind, M_bind, bind, try_catch in Hrun.
  destruct (getPostsForDay env pfuel handle currentDate 3 s) as [b s1|e s1|] eqn:Hlook;
    [|done..].
  destruct b; cbn [negb value] in *.
  - destruct (IH _ _ _ _ _ Hrun) as [Hle _]. split; [lia|]. split; [lia|done].
  - injection Hrun as <- <-. split; [lia|]. done.
Qed.

(** Extra X5. [calculateStreak] never returns a negative count, in either
    variant. In the variant with the Today Checker it returns 0 exactly when
    its first lookup answers false, the lookup of the date one local calendar
    day before now; in [content.js] it returns 0 exactly when the lookup of
    today answers false. This holds over any network and in any time zone. *)
Theorem calculateStreak_zero_iff_gap env fuel handle s :
  (∀ n s', Current.calculateStreak env fuel handle s = Ret n s' →
     0 ≤ n
     ∧ (n = 0 ↔
        value (getPostsForDay env fuel handle
                 (previousDay env (clock env (length (trace s)))) 3 s) = Some false))
  ∧ (∀ n s', Legacy.calculateStreak env fuel handle s = Ret n s' →
       0 ≤ n
       ∧ (n = 0 ↔
          value (getPostsForDay env fuel handle (clock env (length (trace s))) 3 s)
          = Some false)).
Proof.
  split; intros n s' Hrun.
  - unfold Current.calculateStreak, mbind, M_bind, bind, now in Hrun.
    destruct (getPostsForDay env fuel handle _ 3 s) as [b s1|e s1|] eqn:Hlook; [|done..].
    destruct b; cbn [negb value] in *.
    + destruct (countBack_at_least _ _ _ _ _ _ _ _ _ Hrun) as [Hle Hiff].
      rewrite (getPostsForDay_hit _ _ _ _ _ _ true) in Hiff
        by (by eapply getPostsForDay_memoizes).
      split; [done|]. split; [|done]. intros ->. by apply Hiff.
    + injection Hrun as <- <-. done.
  - unfold Legacy.calculateStreak, mbind, M_bind, bind, now in Hrun.
    by apply (countBack_at_least _ _ _ _ _ _ _ _ _ Hrun).
Qed.

Lemma calculateStreak_zero_iff_gap_witness :
  ∃ s', Current.calculateStreak Scenario.envGap 5 "alice" Scenario.ready = Ret 0 s'
        ∧ value (getPostsForDay Scenario.envGap 5 "alice"
                   (previousDay Scenario.envGap (Scenario.noon 100)) 3 Scenario.ready)
          = Some false.
Proof.
  eexists. split; [vm_compute; reflexivity|].
  destruct (calculateStreak_zero_iff_gap Scenario.envGap 5 "alice" Scenario.ready)
    as [Hcurrent _].
  destruct (Hcurrent 0 _ ltac:(vm_compute; reflexivity)) as [_ Hiff].
  by apply Hiff.
Defined.

(** Extra X6. [calculateStreak] only looks up, in either variant. A
    completed run leaves the persisted record, the flag and the timers as
    they were, keeps every entry the cache had and only appends to the trace;
    when it returns a count the page is exactly as it was, so the only mark it
    can leave on the page is the error message of a failed walk. *)
Theorem calculateStreak_only_looks_up env fuel handle s :
  (∀ s', final (Current.calculateStreak env fuel handle s) = Some s' →
         onlyLooksUp s s')
  ∧ (∀ n s', Current.calculateStreak env fuel handle s = Ret n s' → dom s' = dom s)
  ∧ (∀ s', final (Legacy.calculateStreak env fuel handle s) = Some s' →
           onlyLooksUp s s')
  ∧ (∀ n s', Legacy.calculateStreak env fuel handle s = Ret n s' → dom s' = dom s).
Proof.
  split; [apply looksUp_currentCalculateStreak|]. split; [|split].
  - intros n s' Hrun.
    unfold Current.calculateStreak, mbind, M_bind, bind, now in Hrun.
    destruct (getPostsForDay env fuel handle _ 3 s) as [b s1|e s1|] eqn:Hlook; [|done..].
    pose proof (keepsPage_getPostsForDay _ _ _ _ _ _ _ _ Hlook) as Hdom.
    destruct b; cbn [negb] in Hrun.
    + rewrite <- Hdom. by eapply keepsPage_countBack.
    + by injection Hrun as _ <-.
  - apply looksUp_legacyCalculateStreak.
  - intros n s' Hrun.
    unfold Legacy.calculateStreak, mbind, M_bind, bind, now in Hrun.
    by eapply keepsPage_countBack.
Qed.

Lemma calculateStreak_only_looks_up_witness :
  ∃ s', Current.calculateStreak Scenario.envA 5 "alice"
          (with_cache ∅ Scenario.currentDisplayed) = Ret 3 s'
        ∧ length (trace s') = (length (trace Scenario.currentDisplayed) + 8)%nat
        ∧ localStorage s' = localStorage Scenario.currentDisplayed
        ∧ dom s' = dom Scenario.currentDisplayed.
Proof.
  destruct (calculateStreak_only_looks_up Scenario.envA 5 "alice"
              (with_cache ∅ Scenario.currentDisplayed)) as (Hframe & Hpage & _).
  eexists. split; [vm_compute; reflexivity|].
  split; [vm_compute; reflexivity|].
  destruct (Hframe _ ltac:(vm_compute; reflexivity)) as (Hrecord & _).
  split; [exact Hrecord|].
  apply (Hpage 3 _ ltac:(vm_compute; reflexivity)).
Defined.

(** ** More on the update sequence *)

Lemma bind_throws {A B} (m : M A) (k : A → M B) s e s1 :
  m s = Throw e s1 → bind m k s = Throw e s1.
Proof. unfold bind. by intros ->. Qed.

Lemma try_catch_throws {A} (m : M A) (h : Error → M A) s e s1 :
  m s = Throw e s1 → try_catch m h s = h e s1.
Proof. unfold try_catch. by intros ->. Qed.

(** The update sequence of the variant with the Today Checker, case by case. *)
Lemma updateFunc_cases env fuel s :
  let s0 := if isRefreshing s then s
            else with_dom (mkDom (helpLink (dom s)) (profileLink (dom s)) None true None) s in
  match helpLink (dom s), profileLink (dom s) with
  | false, _ | true, None =>
      Current.updateFunc env fuel s = showError updateFailed s
  | true, Some handle =>
      ∃ posted s1,
        Current.checkRecentPostsForToday env handle s0 = Ret posted s1
        ∧ onlyLooksUp s0 s1
        ∧ match Current.calculateStreak env fuel handle s1 with
          | Ret historical s2 =>
              let streak := if posted then historical + 1 else historical in
              Current.updateFunc env fuel s
              = Ret tt
                  (with_dom
                     (mkDom (helpLink (dom s2)) (profileLink (dom s2))
                        (Some (mkStreakDisplay posted (StreakText streak) RefreshIcon))
                        false None)
                     (with_localStorage
                        (Some (mkStreakRecord (Some (clock env (length (trace s2))))
                                 streak))
                        s2))
          | Throw _ s2 => Current.updateFunc env fuel s = showError updateFailed s2
          | Diverge => Current.updateFunc env fuel s = Diverge
          end
  end.
Proof.
  intros s0. unfold Current.updateFunc, mbind, M_bind.
  destruct (helpLink (dom s)) eqn:Hhelp.
  2:{ erewrite try_catch_throws; [done|].
      rewrite (bind_returns _ _ s false s) by (unfold gets; by rewrite Hhelp). done. }
  destruct (profileLink (dom s)) as [handle|] eqn:Hprofile.
  2:{ erewrite try_catch_throws; [done|].
      rewrite (bind_returns _ _ s true s) by (unfold gets; by rewrite Hhelp).
      cbn [negb]. apply bind_throws. unfold getProfile. by rewrite Hprofile. }
  pose proof (checkRecentPostsForToday_run env handle s0) as Hcheck. cbv zeta in Hcheck.
  eexists _, _. split; [exact Hcheck|]. split; [apply looksUp_log|].
  assert ((if negb (isRefreshing s)
           then bind removeExistingStreakContainers (λ _, appendLoadingIndicator)
           else mret tt) s = Ret tt s0) as Hload.
  { unfold s0. destruct (isRefreshing s); cbn; [done|]. by rewrite Hhelp, Hprofile. }
  match goal with
  | |- match ?run with _ => _ end =>
      assert (∀ r, run = r → run = r) as _ by done; destruct run as [n s2|e s2|] eqn:Hcalc
  end.
  - cbv zeta. apply try_catch_returns.
    rewrite (bind_returns _ _ s true s) by (unfold gets; by rewrite Hhelp).
    cbn [negb].
    rewrite (bind_returns _ _ s handle s) by (unfold getProfile; by rewrite Hprofile).
    rewrite (bind_returns _ _ s (isRefreshing s) s) by done.
    rewrite (bind_returns _ _ _ _ _ Hload).
    rewrite (bind_returns _ _ _ _ _ Hcheck).
    rewrite (bind_returns _ _ _ _ _ Hcalc).
    done.
  - erewrite try_catch_throws; [done|].
    rewrite (bind_returns _ _ s true s) by (unfold gets; by rewrite Hhelp).
    cbn [negb].
    rewrite (bind_returns _ _ s handle s) by (unfold getProfile; by rewrite Hprofile).
    rewrite (bind_returns _ _ s (isRefreshing s) s) by done.
    rewrite (bind_returns _ _ _ _ _ Hload).
    rewrite (bind_returns _ _ _ _ _ Hcheck).
    by apply bind_throws.
  - unfold try_catch.
    rewrite (bind_returns _ _ s true s) by (unfold gets; by rewrite Hhelp).
    cbn [negb].
    rewrite (bind_returns _ _ s handle s) by (unfold getProfile; by rewrite Hprofile).
    rewrite (bind_returns _ _ s (isRefreshing s) s) by done.
    rewrite (bind_returns _ _ _ _ _ Hload).
    rewrite (bind_returns _ _ _ _ _ Hcheck).
    unfold bind at 1. by rewrite Hcalc.
Qed.

Lemma currentCalculateStreak_nonneg env fuel handle s n s' :
  Current.calculateStreak env fuel handle s = Ret n s' → 0 ≤ n.
Proof.
  intros Hrun. unfold Current.calculateStreak, mbind, M_bind, bind, now in Hrun.
  destruct (getPostsForDay env fuel handle _ 3 s) as [b s1|e s1|]; [|done..].
  destruct b; cbn [negb] in Hrun.
  - by destruct (countBack_at_least _ _ _ _ _ _ _ _ _ Hrun).
  - by injection Hrun as <- _.
Qed.

(** Extra X7. A completed run of the update sequence of the variant with the
    Today Checker never throws, leaves flag and timers alone, keeps every
    entry of the cache, and ends in one of two ways. Either it failed: the
    persisted record is as it was and the page shows the one message "Failed
    to update streak. Please refresh." (nothing when the page has no help
    link). Or it succeeded: the streak it displays is the streak it
    persisted, the count is not negative and is at least 1 when it reports a
    post today, the loading indicator is gone and no error is shown. *)
Theorem updateFunc_outcome env fuel s s' :
  final (Current.updateFunc env fuel s) = Some s' →
  thrown (Current.updateFunc env fuel s) = false
  ∧ sameSchedule s s'
  ∧ cache s ⊆ cache s'
  ∧ ((localStorage s' = localStorage s
      ∧ streakError (dom s') = (if helpLink (dom s) then Some updateFailed else None))
     ∨ (∃ n posted date,
          localStorage s' = Some (mkStreakRecord (Some date) n)
          ∧ mainContainer (dom s')
            = Some (mkStreakDisplay posted (StreakText n) RefreshIcon)
          ∧ loadingIndicator (dom s') = false
          ∧ streakError (dom s') = None
          ∧ 0 ≤ n
          ∧ (posted = true → 1 ≤ n))).
Proof.
  intros Hfinal.
  pose proof (updateFunc_cases env fuel s) as Hcases. cbv zeta in Hcases.
  destruct (helpLink (dom s)) eqn:Hhelp;
    [destruct (profileLink (dom s)) as [handle|] eqn:Hprofile|].
  - destruct Hcases as (posted & s1 & Hcheck & Hs1 & Hcalc).
    set (s0 := if isRefreshing s then s else _) in *.
    assert (onlyLooksUp s s0) as Hs0.
    { unfold s0. destruct (isRefreshing s); [apply onlyLooksUp_refl|].
      by repeat split. }
    pose proof (onlyLooksUp_trans _ _ _ Hs0 Hs1) as Hs01.
    pose proof (looksUp_currentCalculateStreak env fuel handle s1) as Hlook.
    destruct (Current.calculateStreak env fuel handle s1) as [n s2|e s2|] eqn:Hrun.
    + cbv zeta in Hcalc. rewrite Hcalc in Hfinal |- *. injection Hfinal as <-.
      pose proof (onlyLooksUp_trans _ _ _ Hs01 (Hlook s2 eq_refl))
        as (H1 & H2 & H3 & H4 & H5 & H6 & H7 & H8 & H9).
      split; [done|]. split; [by repeat split|]. split; [done|]. right.
      eexists _, posted, _. repeat split.
      * pose proof (currentCalculateStreak_nonneg _ _ _ _ _ _ Hrun). destruct posted; lia.
      * pose proof (currentCalculateStreak_nonneg _ _ _ _ _ _ Hrun). intros ->. lia.
    + rewrite Hcalc in Hfinal |- *. injection Hfinal as <-.
      pose proof (onlyLooksUp_trans _ _ _ Hs01 (Hlook s2 eq_refl))
        as (H1 & H2 & H3 & H4 & H5 & H6 & H7 & H8 & H9).
      split; [done|]. split; [by repeat split|]. split; [done|]. left.
      split; [done|]. cbn. by rewrite H6, Hhelp.
    + by rewrite Hcalc in Hfinal.
  - rewrite Hcases in Hfinal |- *. injection Hfinal as <-.
    split; [done|]. split; [by repeat split|]. split; [done|]. left.
    split; [done|]. cbn. by rewrite Hhelp.
  - rewrite Hcases in Hfinal |- *. injection Hfinal as <-.
    split; [done|]. split; [by repeat split|]. split; [done|]. left.
    split; [done|]. cbn. by rewrite Hhelp.
Qed.

Lemma updateFunc_outcome_witness :
  ∃ s', final (Current.updateFunc Scenario.dead 5 Scenario.ready) = Some s'
        ∧ localStorage s' = localStorage Scenario.ready
        ∧ streakError (dom s') = Some updateFailed.
Proof.
  eexists. split; [vm_compute; reflexivity|].
  destruct (updateFunc_outcome Scenario.dead 5 Scenario.ready _
              ltac:(vm_compute; reflexivity)) as (_ & _ & _ & [[Hrecord Herror]|Hok]).
  - split; [exact Hrecord|exact Herror].
  - destruct Hok as (n & posted & date & _ & _ & _ & Hnone & _).
    vm_compute in Hnone. discriminate Hnone.
Defined.

(** The first steps of the update sequence of [content.js]. *)
Lemma legacy_updateFunc_without_links env fuel s :
  helpLink (dom s) = false ∨ profileLink (dom s) = None →
  Legacy.updateFunc env fuel s = showError updateFailed s.
Proof.
  intros Hmissing. unfold Legacy.updateFunc, mbind, M_bind.
  destruct (helpLink (dom s)) eqn:Hhelp.
  - destruct Hmissing as [|Hprofile]; [done|].
    erewrite try_catch_throws; [done|].
    rewrite (bind_returns _ _ s true s) by (unfold gets; by rewrite Hhelp).
    cbn [negb]. apply bind_throws. unfold getProfile. by rewrite Hprofile.
  - erewrite try_catch_throws; [done|].
    rewrite (bind_returns _ _ s false s) by (unfold gets; by rewrite Hhelp). done.
Qed.

(** Extra X8. On a page that lacks a link the update sequence stops before
    it touches anything else, in both variants: no request is issued, cache,
    record, timers and whatever streak is displayed stay as they are. Without
    help link it fails silently, since the message needs the help link to be
    shown: the only change is that an error shown before is removed. With
    help link but without profile link the message "Failed to update streak.
    Please refresh." is shown. *)
Theorem updateFunc_without_links env fuel s :
  (helpLink (dom s) = false →
   let s' := with_dom (mkDom false (profileLink (dom s)) (mainContainer (dom s))
                         (loadingIndicator (dom s)) None) s in
   Current.updateFunc env fuel s = Ret tt s' ∧ Legacy.updateFunc env fuel s = Ret tt s')
  ∧ (helpLink (dom s) = true →
     profileLink (dom s) = None →
     let s' := with_dom (mkDom true None (mainContainer (dom s))
                           (loadingIndicator (dom s)) (Some updateFailed)) s in
     Current.updateFunc env fuel s = Ret tt s' ∧ Legacy.updateFunc env fuel s = Ret tt s').
Proof.
  pose proof (updateFunc_cases env fuel s) as Hcases. cbv zeta in Hcases.
  split.
  - intros Hhelp s'. rewrite Hhelp in Hcases.
    rewrite Hcases, legacy_updateFunc_without_links by by left.
    unfold s', showError, modify. by rewrite Hhelp.
  - intros Hhelp Hprofile s'. rewrite Hhelp, Hprofile in Hcases.
    rewrite Hcases, legacy_updateFunc_without_links by by right.
    unfold s', showError, modify. by rewrite Hhelp, Hprofile.
Qed.

Lemma updateFunc_without_links_witness :
  Current.updateFunc Scenario.envA 5
    (with_dom (mkDom false (Some "alice") None false (Some updateFailed)) Scenario.ready)
  = Ret tt (with_dom (mkDom false (Some "alice") None false None) Scenario.ready).
Proof.
  destruct (updateFunc_without_links Scenario.envA 5
              (with_dom (mkDom false (Some "alice") None false (Some updateFailed))
                 Scenario.ready)) as [Hsilent _].
  by destruct (Hsilent eq_refl) as [Hcurrent _].
Defined.

(** Extra X9. With a persisted record that holds a [streakDate], the update
    sequence of [content.js] never asks the network. It displays 0 when the
    day of the month of today exceeds that of the stored date by more than
    one and the stored number otherwise, always as "not posted today", and
    writes back the stored date with the number displayed; cache and trace
    stay as they are. *)
Theorem legacy_updateFunc_with_streakDate env fuel s handle stored number :
  helpLink (dom s) = true →
  profileLink (dom s) = Some handle →
  localStorage s = Some (mkStreakRecord (Some stored) number) →
  let today := Legacy.parseLocalDate env (getUTCDate (clock env (length (trace s)))) in
  let streak := if 1 <? Legacy.getDate env today - Legacy.getDate env stored
                then 0 else number in
  Legacy.updateFunc env fuel s
  = Ret tt
      (with_dom
         (mkDom true (Some handle)
                (Some (mkStreakDisplay false (StreakText streak) RefreshIcon))
                false None)
         (with_localStorage (Some (mkStreakRecord (Some stored) streak)) s)).
Proof.
  intros Hhelp Hprofile Hrecord today streak.
  set (s0 := with_dom (mkDom true (Some handle) None true None) s).
  unfold Legacy.updateFunc, mbind, M_bind.
  apply try_catch_returns.
  rewrite (bind_returns _ _ s true s) by (unfold gets; by rewrite Hhelp).
  cbn [negb].
  rewrite (bind_returns _ _ s handle s) by (unfold getProfile; by rewrite Hprofile).
  rewrite (bind_returns _ _ s tt
             (with_dom (mkDom true (Some handle) None false None) s))
    by (unfold removeExistingStreakContainers, modify; by rewrite Hhelp, Hprofile).
  rewrite (bind_returns _ _ _ tt s0) by done.
  rewrite (bind_returns _ _ s0 (clock env (length (trace s))) s0) by done.
  rewrite (bind_returns _ _ s0 (Some (mkStreakRecord (Some stored) number)) s0)
    by (unfold gets; cbn; by rewrite Hrecord).
  cbn [default streakDate streakNumber from_option].
  fold today.
  rewrite (bind_returns _ _ s0 (streak, false) s0).
  - done.
  - unfold streak, Legacy.isoString_lt_Date, Legacy.isoString_strictEq_Date, id.
    cbn [streakDate streakNumber from_option].
    by destruct (1 <? _).
Qed.

Lemma legacy_updateFunc_with_streakDate_witness :
  shown (Legacy.updateFunc Scenario.envNextDay 5 Scenario.legacyNextDay)
  = Some (Some (mkStreakDisplay false (StreakText 3) RefreshIcon), []).
Proof.
  rewrite (legacy_updateFunc_with_streakDate Scenario.envNextDay 5 Scenario.legacyNextDay
             "alice" (100 * msPerDay) 3 eq_refl eq_refl eq_refl).
  reflexivity.
Defined.

(** ** Debounce *)

Lemma filter_ne_all (id : nat) (l : list nat) :
  (∀ x, x ∈ l → x = id) → filter (λ t, t ≠ id) l = [].
Proof.
  induction l as [|x l IH]; intros Hall; [done|].
  rewrite filter_cons. destruct (decide (x ≠ id)) as [Hne|_].
  - exfalso. apply Hne, Hall. apply list_elem_of_here.
  - apply IH. intros y Hy. apply Hall. by apply list_elem_of_further.
Qed.

(** What a readiness signal does to the timers, in both variants. *)
Lemma debounce_step s :
  debounced s →
  let s' := mkState (cache s) (localStorage s) (isRefreshing s) (Some (nextTimer s))
              [nextTimer s] (S (nextTimer s)) (dom s) (trace s) in
  Legacy.updateOrInsertStreakInfo s = Ret tt s'
  ∧ (isRefreshing s = false →
     ∀ env fuel, Current.updateOrInsertStreakInfo env fuel s = Ret tt s')
  ∧ debounced s'.
Proof.
  intros (Hpending & Hnodup & Hfresh) s'.
  assert (match debounceTimeout s with
          | Some id => filter (λ t, t ≠ id) (timers s)
          | None => timers s
          end = []) as Hcleared.
  { destruct (debounceTimeout s) as [id|] eqn:Hdeb.
    - apply filter_ne_all. intros x Hx. specialize (Hpending x Hx). congruence.
    - destruct (timers s) as [|x l]; [done|].
      by specialize (Hpending x (list_elem_of_here _ _)). }
  split; [|split].
  - unfold Legacy.updateOrInsertStreakInfo, mbind, M_bind, bind, gets, modify,
      setTimeout, clearTimeout.
    unfold s'. destruct (debounceTimeout s); cbn; by rewrite Hcleared.
  - intros Hflag env fuel.
    unfold Current.updateOrInsertStreakInfo, mbind, M_bind, bind, gets, modify,
      setTimeout, clearTimeout.
    rewrite Hflag. unfold s'. destruct (debounceTimeout s); cbn; by rewrite Hcleared, ?Hflag.
  - split; [|split]; cbn.
    + intros id Hid. apply list_elem_of_singleton in Hid. by subst.
    + apply NoDup_singleton.
    + intros id [= <-]. lia.
Qed.

(** Extra X10. Readiness signals are debounced, in both variants. In a state
    whose pending timers are the one [debounceTimeout] names (as at start,
    where there is none), a signal outside a refresh computes nothing: it
    cancels the pending timer and leaves exactly one, the new one, so a burst
    of signals ends with a single run pending. The callback of the timer it
    cancelled never runs: firing it later changes nothing. *)
Theorem updateOrInsertStreakInfo_debounces env fuel s :
  debounced s →
  ∃ s',
    Legacy.updateOrInsertStreakInfo s = Ret tt s'
    ∧ (isRefreshing s = false → Current.updateOrInsertStreakInfo env fuel s = Ret tt s')
    ∧ timers s' = [nextTimer s]
    ∧ debounced s'
    ∧ cache s' = cache s ∧ localStorage s' = localStorage s
    ∧ dom s' = dom s ∧ trace s' = trace s
    ∧ (∀ id, debounceTimeout s = Some id →
         Current.fireTimer env fuel id s' = Ret tt s'
         ∧ Legacy.fireTimer env fuel id s' = Ret tt s').
Proof.
  intros Hdeb. destruct (debounce_step s Hdeb) as (Hlegacy & Hcurrent & Hdeb').
  eexists. split; [exact Hlegacy|]. split; [intros Hflag; by apply Hcurrent|].
  repeat (split; [done|]).
  intros id Hid. destruct Hdeb as (_ & _ & Hfresh). specialize (Hfresh id Hid).
  assert (bool_decide (id ∈ [nextTimer s]) = false) as Hnot.
  { apply bool_decide_eq_false_2. rewrite list_elem_of_singleton. lia. }
  unfold Current.fireTimer, Legacy.fireTimer, mbind, M_bind, bind, gets. cbn [timers].
  by rewrite Hnot.
Qed.

Lemma updateOrInsertStreakInfo_debounces_witness :
  ∃ s', Current.updateOrInsertStreakInfo Scenario.envA 5
          (Scenario.stateOf (Legacy.updateOrInsertStreakInfo Scenario.ready))
        = Ret tt s'
        ∧ timers s' = [2%nat]
        ∧ Current.fireTimer Scenario.envA 5 1 s' = Ret tt s'.
Proof.
  destruct (updateOrInsertStreakInfo_debounces Scenario.envA 5
              (Scenario.stateOf (Legacy.updateOrInsertStreakInfo Scenario.ready)))
    as (s' & _ & Hcurrent & Htimers & _ & _ & _ & _ & _ & Hfire).
  - split; [|split].
    + intros id Hid. apply list_elem_of_singleton in Hid. by subst.
    + apply NoDup_singleton.
    + intros id [= <-]. apply Nat.lt_succ_diag_r.
  - exists s'. split; [by apply Hcurrent|]. split; [exact Htimers|].
    by destruct (Hfire 1%nat eq_refl).
Defined.

(** ** Timers and the update sequence *)

Lemma respects_weaken {A} (R R' : State → State → Prop) (m : M A) :
  (∀ s s', R s s' → R' s s') → respects R m → respects R' m.
Proof. intros Himpl Hm s s' Hfinal. by apply Himpl, Hm. Qed.

Lemma schedule_page (f : Dom → Dom) :
  (∀ d, helpLink (f d) = helpLink d ∧ profileLink (f d) = profileLink d) →
  respects sameSchedule (modify (λ s, with_dom (f (dom s)) s)).
Proof.
  intros Hf. apply respects_modify. intros s. destruct (Hf (dom s)) as [Hh Hp].
  by repeat split.
Qed.

Lemma schedule_getProfile : respects sameSchedule getProfile.
Proof.
  intros s s' Hfinal. unfold getProfile in Hfinal.
  destruct (profileLink (dom s)); injection Hfinal as <-; apply sameSchedule_refl.
Qed.

Lemma schedule_record record : respects sameSchedule (modify (with_localStorage record)).
Proof. apply respects_modify. intros s. by repeat split. Qed.

Lemma schedule_currentUpdateFunc env fuel :
  respects sameSchedule (Current.updateFunc env fuel).
Proof.
  pose proof sameSchedule_refl as Hrefl. pose proof sameSchedule_trans as Htrans.
  apply respects_try_catch; [done| |].
  2:{ intros _. eapply respects_weaken;
        [apply onlyLooksUp_sameSchedule|apply looksUp_showError]. }
  apply respects_bind; [done|by apply respects_gets|].
  intros help. destruct help; cbn [negb]; [|by apply respects_throw].
  apply respects_bind; [done|apply schedule_getProfile|]. intros handle.
  apply respects_bind; [done|by apply respects_gets|]. intros refreshing.
  apply respects_bind; [done| |].
  { destruct refreshing; cbn [negb]; [by apply respects_ret|].
    apply respects_bind; [done| |intros _].
    - by apply (schedule_page (λ d, mkDom (helpLink d) (profileLink d) None false None)).
    - by apply (schedule_page (λ d, mkDom (helpLink d) (profileLink d) (mainContainer d)
                                          true (streakError d))). }
  intros _.
  apply respects_bind; [done| |].
  { intros s s' Hfinal. rewrite checkRecentPostsForToday_run in Hfinal.
    injection Hfinal as <-. apply onlyLooksUp_sameSchedule, looksUp_log. }
  intros posted.
  apply respects_bind; [done| |].
  { eapply respects_weaken;
      [apply onlyLooksUp_sameSchedule|apply looksUp_currentCalculateStreak]. }
  intros historical.
  apply respects_bind; [done| |].
  { eapply respects_weaken; [apply onlyLooksUp_sameSchedule|apply looksUp_now]. }
  intros date.
  apply respects_bind; [done|apply schedule_record|]. intros _.
  apply respects_bind; [done| |intros _].
  - by apply (schedule_page (λ d, mkDom (helpLink d) (profileLink d) None false None)).
  - by apply (schedule_page (λ d, mkDom (helpLink d) (profileLink d) _
                                        (loadingIndicator d) (streakError d))).
Qed.

Lemma schedule_legacyUpdateFunc env fuel :
  respects sameSchedule (Legacy.updateFunc env fuel).
Proof.
  pose proof sameSchedule_refl as Hrefl. pose proof sameSchedule_trans as Htrans.
  assert (∀ A (m : M A), respects onlyLooksUp m → respects sameSchedule m) as Hweak.
  { intros A m. apply respects_weaken, onlyLooksUp_sameSchedule. }
  apply respects_try_catch; [done| |].
  2:{ intros _. apply Hweak, looksUp_showError. }
  apply respects_bind; [done|by apply respects_gets|].
  intros help. destruct help; cbn [negb]; [|by apply respects_throw].
  apply respects_bind; [done|apply schedule_getProfile|]. intros handle.
  apply respects_bind; [done| |intros _].
  { by apply (schedule_page (λ d, mkDom (helpLink d) (profileLink d) None false None)). }
  apply respects_bind; [done| |intros _].
  { by apply (schedule_page (λ d, mkDom (helpLink d) (profileLink d) (mainContainer d)
                                        true (streakError d))). }
  apply respects_bind; [done|apply Hweak, looksUp_now|]. intros date.
  apply respects_bind; [done|by apply respects_gets|]. intros stored.
  apply respects_bind; [done| |].
  { destruct (from_option _ false _); [by apply respects_ret|].
    destruct (from_option _ true _); [|by apply respects_ret].
    destruct (from_option _ false _).
    - apply respects_bind; [done|apply Hweak, looksUp_now|]. intros date'.
      apply respects_bind; [done|apply Hweak, looksUp_getPostsForDay|]. intros posted.
      by apply respects_ret.
    - apply respects_bind; [done|apply Hweak, looksUp_legacyCalculateStreak|].
      intros streak. by apply respects_ret. }
  intros result.
  apply respects_bind; [done|apply schedule_record|]. intros _.
  apply respects_bind; [done| |intros _].
  - by apply (schedule_page (λ d, mkDom (helpLink d) (profileLink d) None false None)).
  - by apply (schedule_page (λ d, mkDom (helpLink d) (profileLink d) _
                                        (loadingIndicator d) (streakError d))).
Qed.

(** Extra X11. A timer runs the update sequence once, in both variants. When
    the pending timers are the one [debounceTimeout] names and that timer
    fires, the sequence runs in a state with no timer pending and sets none:
    when it is over no run is pending, and firing the same identifier again
    does nothing. Until the next signal the page is computed exactly once. *)
Theorem fireTimer_runs_once env fuel s id :
  debounced s →
  id ∈ timers s →
  let started := mkState (cache s) (localStorage s) (isRefreshing s) (debounceTimeout s)
                   [] (nextTimer s) (dom s) (trace s) in
  Current.fireTimer env fuel id s = Current.updateFunc env fuel started
  ∧ Legacy.fireTimer env fuel id s = Legacy.updateFunc env fuel started
  ∧ (∀ s', final (Current.fireTimer env fuel id s) = Some s' →
           timers s' = []
           ∧ ∀ env' fuel', Current.fireTimer env' fuel' id s' = Ret tt s')
  ∧ (∀ s', final (Legacy.fireTimer env fuel id s) = Some s' →
           timers s' = []
           ∧ ∀ env' fuel', Legacy.fireTimer env' fuel' id s' = Ret tt s').
Proof.
  intros (Hpending & Hnodup & Hfresh) Hid started.
  assert (filter (λ t, t ≠ id) (timers s) = []) as Hcleared.
  { apply filter_ne_all. intros x Hx.
    pose proof (Hpending x Hx). pose proof (Hpending id Hid). congruence. }
  assert (Current.fireTimer env fuel id s = Current.updateFunc env fuel started) as Hcur.
  { unfold Current.fireTimer, mbind, M_bind, bind at 1, gets.
    rewrite bool_decide_eq_true_2 by done.
    unfold bind, clearTimeout, modify. by rewrite Hcleared. }
  assert (Legacy.fireTimer env fuel id s = Legacy.updateFunc env fuel started) as Hleg.
  { unfold Legacy.fireTimer, mbind, M_bind, bind at 1, gets.
    rewrite bool_decide_eq_true_2 by done.
    unfold bind, clearTimeout, modify. by rewrite Hcleared. }
  split; [done|]. split; [done|]. split.
  - intros s' Hfinal. rewrite Hcur in Hfinal.
    destruct (schedule_currentUpdateFunc env fuel started s' Hfinal)
      as (_ & _ & Htimers & _).
    split; [done|]. intros env' fuel'.
    unfold Current.fireTimer, mbind, M_bind, bind, gets. by rewrite Htimers.
  - intros s' Hfinal. rewrite Hleg in Hfinal.
    destruct (schedule_legacyUpdateFunc env fuel started s' Hfinal)
      as (_ & _ & Htimers & _).
    split; [done|]. intros env' fuel'.
    unfold Legacy.fireTimer, mbind, M_bind, bind, gets. by rewrite Htimers.
Qed.

Lemma fireTimer_runs_once_witness :
  ∃ s', final (Current.fireTimer Scenario.envA 5 1
                 (Scenario.stateOf (Legacy.updateOrInsertStreakInfo Scenario.ready)))
        = Some s'
        ∧ timers s' = []
        ∧ Current.fireTimer Scenario.dead 0 1 s' = Ret tt s'.
Proof.
  destruct (fireTimer_runs_once Scenario.envA 5
              (Scenario.stateOf (Legacy.updateOrInsertStreakInfo Scenario.ready)) 1%nat)
    as (_ & _ & Hcurrent & _).
  - split; [|split].
    + intros id Hid. apply list_elem_of_singleton in Hid. by subst.
    + apply NoDup_singleton.
    + intros id [= <-]. apply Nat.lt_succ_diag_r.
  - apply list_elem_of_here.
  - eexists. split; [vm_compute; reflexivity|].
    destruct (Hcurrent _ ltac:(vm_compute; reflexivity)) as [Htimers Hagain].
    split; [exact Htimers|apply Hagain].
Defined.

(** ** More on refresh *)

(** The state in which a refresh that goes ahead runs the update sequence. *)
Lemma refreshStreak_cases env fuel s :
  isRefreshing s = false →
  match helpLink (dom s), mainContainer (dom s) with
  | false, _ =>
      Current.refreshStreak env fuel s
      = Ret tt (with_dom (mkDom false (profileLink (dom s)) (mainContainer (dom s))
                            (loadingIndicator (dom s)) None) s)
  | true, None => Current.refreshStreak env fuel s = Ret tt s
  | true, Some w =>
      Current.refreshStreak env fuel s
      = onState (with_isRefreshing false)
          (Current.updateFunc env fuel
             (mkState ∅ None true (debounceTimeout s) (timers s) (nextTimer s)
                (mkDom true (profileLink (dom s))
                   (Some (mkStreakDisplay (postedToday w) RefreshingText HourglassIcon))
                   (loadingIndicator (dom s)) (streakError (dom s)))
                (trace s ++ [Sleep 500])))
  end.
Proof.
  intros Hflag.
  assert (with_isRefreshing false (with_isRefreshing true s) = s) as Hback.
  { destruct s; cbn in *; by subst. }
  unfold Current.refreshStreak, mbind, M_bind.
  rewrite (bind_returns _ _ s false s) by (unfold gets; by rewrite Hflag).
  unfold try_finally, try_catch.
  rewrite (bind_returns _ _ s tt (with_isRefreshing true s)) by done.
  destruct (helpLink (dom s)) eqn:Hhelp.
  - rewrite (bind_returns _ _ _ true (with_isRefreshing true s))
      by (unfold gets; cbn; by rewrite Hhelp).
    cbn [negb].
    destruct (mainContainer (dom s)) as [w|] eqn:Hmain.
    + rewrite (bind_returns _ _ _ (Some w) (with_isRefreshing true s))
        by (unfold gets; cbn; by rewrite Hmain).
      unfold Current.markRefreshing, sleep, modify, bind.
      rewrite updateOrInsertStreakInfo_refreshing by done.
      lazymatch goal with
      | |- match match Current.updateFunc env fuel ?x with _ => _ end with _ => _ end
           = onState _ (Current.updateFunc env fuel ?y) =>
          replace x with y by (unfold log; cbn; by rewrite Hhelp)
      end.
      lazymatch goal with
      | |- context [Current.updateFunc env fuel ?y] =>
          pose proof (updateFunc_catches env fuel y) as Hcatch;
          by destruct (Current.updateFunc env fuel y)
      end.
    + rewrite (bind_returns _ _ _ None (with_isRefreshing true s))
        by (unfold gets; cbn; by rewrite Hmain).
      unfold mret, M_ret, ret. by rewrite Hback.
  - rewrite (bind_returns _ _ _ false (with_isRefreshing true s))
      by (unfold gets; cbn; by rewrite Hhelp).
    cbn [negb]. unfold throw, showError, modify.
    cbn [dom with_isRefreshing helpLink]. rewrite Hhelp.
    f_equal. destruct s; cbn in *; by subst.
Qed.

(** Extra X12. A completed [refreshStreak] never throws and never leaves the
    guard set: the flag is what it was before the request, so a failed
    refresh cannot block later ones. It sets and cancels no timer, so a
    debounced run that was pending is still pending afterwards, and it only
    appends to the trace. *)
Theorem refreshStreak_restores_guard env fuel s s' :
  final (Current.refreshStreak env fuel s) = Some s' →
  thrown (Current.refreshStreak env fuel s) = false
  ∧ sameSchedule s s'.
Proof.
  intros Hfinal.
  destruct (isRefreshing s) eqn:Hflag.
  { assert (Current.refreshStreak env fuel s = Ret tt s) as Hguard.
    { unfold Current.refreshStreak, mbind, M_bind, bind, gets. by rewrite Hflag. }
    rewrite Hguard in Hfinal |- *. injection Hfinal as <-.
    split; [done|apply sameSchedule_refl]. }
  pose proof (refreshStreak_cases env fuel s Hflag) as Hcases.
  destruct (helpLink (dom s)) eqn:Hhelp;
    [destruct (mainContainer (dom s)) as [w|] eqn:Hmain|].
  - rewrite Hcases in Hfinal |- *.
    match type of Hfinal with
    | context [Current.updateFunc env fuel ?x] =>
        pose proof (schedule_currentUpdateFunc env fuel x) as Hrun;
        pose proof (updateFunc_catches env fuel x) as Hcatch;
        destruct (Current.updateFunc env fuel x) as [[] s2|e s2|]; try done
    end.
    injection Hfinal as <-.
    destruct (Hrun s2 eq_refl) as (_ & H3 & H4 & H5 & H6 & H7 & H9). cbn in *.
    split; [done|]. repeat split; try done; cbn; try congruence.
    etrans; [|exact H9]. by apply prefix_app_r.
  - rewrite Hcases in Hfinal |- *. injection Hfinal as <-.
    split; [done|apply sameSchedule_refl].
  - rewrite Hcases in Hfinal |- *. injection Hfinal as <-.
    split; [done|]. by repeat split.
Qed.

Lemma refreshStreak_restores_guard_witness :
  ∃ s', final (Current.refreshStreak Scenario.dead 5 Scenario.currentDisplayed) = Some s'
        ∧ isRefreshing s' = false.
Proof.
  eexists. split; [vm_compute; reflexivity|].
  by destruct (refreshStreak_restores_guard Scenario.dead 5 Scenario.currentDisplayed _
                 ltac:(vm_compute; reflexivity)) as (_ & Hflag & _).
Defined.

(** Extra X13. A refresh request that finds no streak display recomputes and
    clears nothing. With the help link in place the state is left exactly as
    it was, cache and persisted record included; without help link the only
    change is that an error shown before is removed, the message of the
    failed refresh itself not being shown. *)
Theorem refreshStreak_without_display env fuel s :
  isRefreshing s = false →
  (helpLink (dom s) = true → mainContainer (dom s) = None →
   Current.refreshStreak env fuel s = Ret tt s)
  ∧ (helpLink (dom s) = false →
     Current.refreshStreak env fuel s
     = Ret tt (with_dom (mkDom false (profileLink (dom s)) (mainContainer (dom s))
                           (loadingIndicator (dom s)) None) s)).
Proof.
  intros Hflag. pose proof (refreshStreak_cases env fuel s Hflag) as Hcases.
  split.
  - intros Hhelp Hmain. by rewrite Hhelp, Hmain in Hcases.
  - intros Hhelp. by rewrite Hhelp in Hcases.
Qed.

Lemma refreshStreak_without_display_witness :
  Current.refreshStreak Scenario.envA 5 Scenario.ready = Ret tt Scenario.ready.
Proof.
  destruct (refreshStreak_without_display Scenario.envA 5 Scenario.ready eq_refl)
    as [Hnone _].
  by apply Hnone.
Defined.

(** Extra X14. A refresh that goes ahead forgets everything memoized and
    persisted: started from two states that differ only in the cache and the
    persisted record, it runs the same requests and ends in the same state. *)
Theorem refreshStreak_forgets env fuel s w :
  isRefreshing s = false →
  helpLink (dom s) = true →
  mainContainer (dom s) = Some w →
  ∀ c record,
    Current.refreshStreak env fuel (with_cache c (with_localStorage record s))
    = Current.refreshStreak env fuel s.
Proof.
  intros Hflag Hhelp Hmain c record.
  pose proof (refreshStreak_cases env fuel s Hflag) as Hs.
  pose proof (refreshStreak_cases env fuel (with_cache c (with_localStorage record s))
                Hflag) as Hs'.
  cbn [dom with_cache with_localStorage] in Hs'.
  rewrite Hhelp, Hmain in Hs, Hs'. by rewrite Hs, Hs'.
Qed.

Lemma refreshStreak_forgets_witness :
  Current.refreshStreak Scenario.envAfter 5
    (with_cache ∅ (with_localStorage None Scenario.currentDisplayed))
  = Current.refreshStreak Scenario.envAfter 5 Scenario.currentDisplayed.
Proof.
  apply (refreshStreak_forgets Scenario.envAfter 5 Scenario.currentDisplayed
           (mkStreakDisplay false (StreakText 2) RefreshIcon) eq_refl eq_refl eq_refl).
Defined.

(** A lookup that has to ask a network that rejects everything throws. *)
Lemma lookup_dead env fuel handle date s :
  (∀ n req, net env n req = Rejected) →
  cache s !! (handle, getUTCDate date) = None →
  ∃ s', getPostsForDay env (S fuel) handle date 3 s = Throw FetchError s'.
Proof.
  intros Hdead Hmiss.
  assert (∀ s0, paginate env (S fuel) handle (getUTCDate date) None s0
                = Throw FetchError
                    (log (Fetch (feedRequest handle 100 None) Rejected) s0)) as Hpag.
  { intros s0. rewrite paginate_S. cbv zeta. by rewrite Hdead. }
  do 4 (rewrite getPostsForDay_miss by done; rewrite Hpag). by eexists.
Qed.

(** Extra X15. A refresh without network loses what was known and leaves the
    display in its refreshing state. When every request is rejected, a
    refresh on a page that shows a streak ends with the cache empty, the
    persisted record removed, the display still reading "Refreshing..." with
    the hourglass, and the message "Failed to update streak. Please refresh."
    beside it; the guard is clear again. *)
Theorem refreshStreak_offline env fuel s handle w :
  (∀ n req, net env n req = Rejected) →
  isRefreshing s = false →
  helpLink (dom s) = true →
  profileLink (dom s) = Some handle →
  mainContainer (dom s) = Some w →
  ∃ s', Current.refreshStreak env (S fuel) s = Ret tt s'
        ∧ cache s' = ∅
        ∧ localStorage s' = None
        ∧ mainContainer (dom s')
          = Some (mkStreakDisplay (postedToday w) RefreshingText HourglassIcon)
        ∧ streakError (dom s') = Some updateFailed
        ∧ isRefreshing s' = false.
Proof.
  intros Hdead Hflag Hhelp Hprofile Hmain.
  pose proof (refreshStreak_cases env (S fuel) s Hflag) as Hcases.
  rewrite Hhelp, Hmain in Hcases. rewrite Hcases. clear Hcases.
  match goal with
  | |- context [Current.updateFunc env (S fuel) ?x] => set (s0 := x)
  end.
  pose proof (updateFunc_cases env (S fuel) s0) as Hrun. cbv zeta in Hrun.
  cbn [s0 dom helpLink profileLink isRefreshing] in Hrun. rewrite Hprofile in Hrun.
  destruct Hrun as (posted & s1 & Hcheck & Hs1 & Hrun). fold s0 in Hcheck, Hs1.
  assert (cache s1 = ∅ ∧ localStorage s1 = None
          ∧ dom s1 = dom s0 ∧ isRefreshing s1 = true) as (Hc1 & Hr1 & Hd1 & Hf1).
  { rewrite checkRecentPostsForToday_run in Hcheck. by injection Hcheck as _ <-. }
  unfold Current.calculateStreak, mbind, M_bind, bind at 1, now in Hrun.
  destruct (lookup_dead env fuel handle
              (previousDay env (clock env (length (trace s1)))) s1 Hdead) as (s2 & Hlook).
  { by rewrite Hc1. }
  unfold bind in Hrun. rewrite Hlook in Hrun. rewrite Hrun.
  destruct (lookup_run _ _ _ _ _ _ _ s2 ltac:(by rewrite Hc1) Hlook eq_refl)
    as (t & -> & _).
  eexists. split; [done|]. cbn. rewrite Hc1, Hr1, Hd1. by cbn.
Qed.

Lemma refreshStreak_offline_witness :
  ∃ s', Current.refreshStreak Scenario.dead 5 Scenario.currentDisplayed = Ret tt s'
        ∧ cache s' = ∅
        ∧ localStorage s' = None
        ∧ mainContainer (dom s')
          = Some (mkStreakDisplay false RefreshingText HourglassIcon).
Proof.
  destruct (refreshStreak_offline Scenario.dead 4 Scenario.currentDisplayed "alice"
              (mkStreakDisplay false (StreakText 2) RefreshIcon)
              ltac:(done) eq_refl eq_refl eq_refl eq_refl)
    as (s' & Hrun & Hcache & Hrecord & Hmain & _).
  by exists s'.
Defined.

(** ** The walk across a change of offset *)

(** A lookup depends on its date through the UTC day only. *)
Lemma getPostsForDay_day env fuel handle date date' retries s :
  getUTCDate date = getUTCDate date' →
  getPostsForDay env fuel handle date retries s
  = getPostsForDay env fuel handle date' retries s.
Proof.
  intros Hday. revert s. induction retries as [|retries IH]; intros s; cbn;
    rewrite Hday; [done|].
  destruct (cache s !! _); [done|]. destruct (paginate _ _ _ _ _ _); try done.
Qed.

(** The UTC day of the date one local calendar day back. *)
Lemma getUTCDate_offsetGain env date :
  getUTCDate (previousDay env date)
  = getUTCDate date - 1 + (date `mod` msPerDay + offsetGain env date) `div` msPerDay.
Proof.
  rewrite previousDay_offsetGain. unfold getUTCDate.
  assert (msPerDay ≠ 0) as Hne by done.
  rewrite (Z.div_mod date msPerDay Hne) at 1.
  replace (msPerDay * (date `div` msPerDay) + date `mod` msPerDay - msPerDay
           + offsetGain env date)
    with (date `mod` msPerDay + offsetGain env date
          + (date `div` msPerDay - 1) * msPerDay) by lia.
  rewrite Z.div_add by done. lia.
Qed.

(** Extra X16. Across a change of offset the date [calculateStreak] calls
    yesterday is not of the UTC day before today's. Stepping one local
    calendar day back moves the instant by 24 hours less what the offset has
    gained since, so the UTC day moves back by one only while the time of day
    plus the gain stays within the day. When the clocks went forward and no
    more of the UTC day is left than they gained, yesterday is of today's UTC
    day: the variant with the Today Checker then returns 0 exactly when the
    lookup of today answers false, so that a post of today is counted by the
    walk as well. When the clocks went back and less of the UTC day has
    passed than they lost, yesterday is of the UTC day two days back. *)
Theorem calculateStreak_across_offset_change env fuel handle s :
  let today := clock env (length (trace s)) in
  let yesterday := previousDay env today in
  let reach := today `mod` msPerDay + offsetGain env today in
  (0 ≤ reach < msPerDay → getUTCDate yesterday = getUTCDate today - 1)
  ∧ (- msPerDay ≤ reach < 0 → getUTCDate yesterday = getUTCDate today - 2)
  ∧ (msPerDay ≤ reach < 2 * msPerDay →
     getUTCDate yesterday = getUTCDate today
     ∧ ∀ n s', Current.calculateStreak env fuel handle s = Ret n s' →
         (n = 0 ↔ value (getPostsForDay env fuel handle today 3 s) = Some false)).
Proof.
  intros today yesterday reach.
  assert (getUTCDate yesterday = getUTCDate today - 1 + reach `div` msPerDay) as Hday
    by apply getUTCDate_offsetGain.
  assert (0 < msPerDay) as Hpos by done.
  split; [|split].
  - intros Hreach. rewrite Hday, Z.div_small by done. lia.
  - intros Hreach. rewrite Hday.
    replace reach with (reach + msPerDay + (-1) * msPerDay) by lia.
    rewrite Z.div_add, Z.div_small by lia. lia.
  - intros Hreach.
    assert (getUTCDate yesterday = getUTCDate today) as Hsame.
    { rewrite Hday.
      replace reach with (reach - msPerDay + 1 * msPerDay) by lia.
      rewrite Z.div_add, Z.div_small by lia. lia. }
    split; [done|]. intros n s' Hrun.
    rewrite <- (getPostsForDay_day env fuel handle yesterday today 3 s Hsame).
    unfold Current.calculateStreak, mbind, M_bind, bind, now in Hrun.
    fold today yesterday in Hrun.
    destruct (getPostsForDay env fuel handle yesterday 3 s) as [b s1|e s1|] eqn:Hlook;
      [|done..].
    destruct b; cbn [negb value] in *.
    + destruct (countBack_at_least _ _ _ _ _ _ _ _ _ Hrun) as [Hle Hiff].
      rewrite (getPostsForDay_hit _ _ _ _ _ _ true) in Hiff
        by (by eapply getPostsForDay_memoizes).
      split; [|done]. intros ->. by apply Hiff.
    + by injection Hrun as <- <-.
Qed.

Lemma calculateStreak_across_offset_change_witness :
  getUTCDate (previousDay Scenario.envNewYork Scenario.eveningAfterChange) = 19792
  ∧ value (getPostsForDay Scenario.envNewYork 5 "alice" (Scenario.noon 19791) 3
             Scenario.ready) = Some false
  ∧ value (Current.calculateStreak Scenario.envNewYork 5 "alice" Scenario.ready)
    = Some 1.
Proof.
  destruct (calculateStreak_across_offset_change Scenario.envNewYork 5 "alice"
              Scenario.ready) as (_ & _ & Hforward).
  destruct (Hforward ltac:(vm_compute; split; [discriminate|reflexivity]))
    as [Hday Hcount].
  split; [exact Hday|]. split; vm_compute; reflexivity.
Defined.
